(** * Processes_in_linux: a master process driving robot processes in a room

    Shallow embedding of [robot.py] (the agent) and [master.py] (the
    orchestrator), followed by the properties established about them.

    Python integers are unbounded, hence [Z]; Python strings are [string];
    the robots dictionary is an association list in insertion order, because
    the code iterates over it; the two treasure sets are [gset (Z * Z)]. *)

From stdpp Require Import gmap strings list pretty sorting.
From Stdlib Require Import ZArith Lia Ascii.

Local Open Scope string_scope.
Local Open Scope list_scope.
Local Open Scope Z_scope.

(** ** Python string primitives used by both programs *)

(** [str.isspace] on one ASCII character: TAB..CR, FS..US and the blank. *)
Definition py_isspace (c : ascii) : bool :=
  let n := nat_of_ascii c in
  ((9 <=? n)%nat && (n <=? 13)%nat) || ((28 <=? n)%nat && (n <=? 32)%nat).

Fixpoint lstrip (s : string) : string :=
  match s with
  | String c t => if py_isspace c then lstrip t else s
  | EmptyString => EmptyString
  end.

(** [s.strip()] *)
Definition strip (s : string) : string :=
  String.rev (lstrip (String.rev (lstrip s))).

(** [s.split()]: maximal runs of non-blank characters, [cur] being the run
    read so far, most recent character first. *)
Fixpoint split_go (cur : string) (s : string) : list string :=
  match s with
  | EmptyString =>
      match cur with EmptyString => [] | _ => [String.rev cur] end
  | String c t =>
      if py_isspace c
      then match cur with
           | EmptyString => split_go EmptyString t
           | _ => String.rev cur :: split_go EmptyString t
           end
      else split_go (String c cur) t
  end.

Definition split (s : string) : list string := split_go EmptyString s.

(** [needle in hay] on strings. *)
Fixpoint py_in (needle hay : string) : bool :=
  String.prefix needle hay ||
  match hay with
  | String _ t => py_in needle t
  | EmptyString => false
  end.

(** ** The room description

    [sensor.Sensor] is an external collaborator: the programs only call its
    four lookups, which are therefore taken as given. *)
Module Sensor.
Record t := {
  dimensions : Z * Z;               (* (rows, cols) *)
  n_treasures : Z;
  with_obstacle : Z -> Z -> bool;
  with_treasure : Z -> Z -> bool
}.
End Sensor.

(** A cell lies within the bounds of the room. *)
Definition in_room (s : Sensor.t) (p : Z * Z) : Prop :=
  0 <= p.1 < (Sensor.dimensions s).1 /\ 0 <= p.2 < (Sensor.dimensions s).2.

(** Signals exchanged between the two programs. *)
Inductive Signal :=
  SIGINT | SIGQUIT | SIGTSTP | SIGUSR1 | SIGALRM | SIGTERM.

Global Instance Signal_eq_dec : EqDecision Signal.
Proof. solve_decision. Defined.

(** ** robot.py *)
Module Robot.

Record t := {
  id : Z;
  position : Z * Z;                 (* [row, col] *)
  battery : Z;
  sensor : Sensor.t;
  suspended : bool
}.

(** [Robot.__init__] *)
Definition init (id : Z) (position : Z * Z) (battery : Z) (room : Sensor.t) : t :=
  {| id := id; position := position; battery := battery;
     sensor := room; suspended := false |}.

Definition set_position (r : t) (p : Z * Z) : t :=
  {| id := id r; position := p; battery := battery r;
     sensor := sensor r; suspended := suspended r |}.

Definition set_battery (r : t) (b : Z) : t :=
  {| id := id r; position := position r; battery := b;
     sensor := sensor r; suspended := suspended r |}.

Definition set_suspended (r : t) (s : bool) : t :=
  {| id := id r; position := position r; battery := battery r;
     sensor := sensor r; suspended := s |}.

(** [Robot.calculate_new_position] *)
Definition calculate_new_position (r : t) (direction : string) : Z * Z :=
  let '(row, col) := position r in
  if decide (direction = "up") then (row - 1, col)
  else if decide (direction = "down") then (row + 1, col)
  else if decide (direction = "left") then (row, col - 1)
  else if decide (direction = "right") then (row, col + 1)
  else position r.

(** [Robot.valid_move] *)
Definition valid_move (r : t) (new_position : Z * Z) : bool :=
  let '(row, col) := new_position in
  if (row <? 0) || (col <? 0) then false
  else
    let '(max_row, max_col) := Sensor.dimensions (sensor r) in
    if (row >=? max_row) || (col >=? max_col) then false
    else negb (Sensor.with_obstacle (sensor r) row col).

(** [Robot.battery_decrease] (defined twice in the source, same body) *)
Definition battery_decrease (r : t) (number : Z) : t :=
  if negb (suspended r)
  then set_battery r (Z.max 0 (battery r - number))
  else r.

(** [Robot.move]: the new state and the line printed on stdout. *)
Definition move (r : t) (direction : string) : t * string :=
  if suspended r then (r, "KO")
  else if battery r <? 5 then (r, "KO")
  else
    let new_position := calculate_new_position r direction in
    if valid_move r new_position
    then (battery_decrease (set_position r new_position) 5, "OK")
    else (r, "KO").

Definition stopped_line (r : t) : string :=
  "Robot " +:+ pretty (id r) +:+ " is stopped".

(** [Robot.print_battery] *)
Definition print_battery (r : t) : string :=
  if suspended r then stopped_line r
  else "Battery: " +:+ pretty (battery r).

(** [Robot.print_position] *)
Definition print_position (r : t) : string :=
  if suspended r then stopped_line r
  else let '(row, col) := position r in
       "Position: " +:+ pretty row +:+ " " +:+ pretty col.

(** [Robot.print_id], written to stderr *)
Definition print_id (r : t) : string :=
  "id: " +:+ pretty (id r) +:+ " P: (" +:+ pretty (fst (position r)) +:+ ","
    +:+ pretty (snd (position r)) +:+ ") Bat: " +:+ pretty (battery r).

(** [Robot.check_treasure]: the line printed and the value returned. *)
Definition check_treasure (r : t) : string * bool :=
  if suspended r then (stopped_line r, false)
  else let '(row, col) := position r in
       if Sensor.with_treasure (sensor r) row col
       then ("Treasure at " +:+ pretty row +:+ " " +:+ pretty col, true)
       else ("Water at " +:+ pretty row +:+ " " +:+ pretty col, false).

(** [signal_handler]: the new state and what goes to stderr. The handler is
    installed for five signals; any other one is not handled here. *)
Definition signal_handler (r : t) (signum : Signal) : t * list string :=
  match signum with
  | SIGQUIT => (set_suspended r false, [])
  | SIGINT => (set_suspended r true, [])
  | SIGTSTP => (r, [print_id r])
  | SIGUSR1 => (set_battery r 100, [])
  | SIGALRM => (battery_decrease r 1, [])
  | SIGTERM => (r, [])
  end.

(** How the process ends: [sys.exit(code)], or the default action of a
    signal without handler. *)
Inductive Ending :=
| ExitStatus (code : Z)
| KilledBy (signum : Signal).

(** What one turn of the command loop of [main] leaves behind. *)
Record Output := {
  stdout : list string;
  stderr : list string;
  exited : option Ending
}.

Definition reply (lines : list string) : Output :=
  {| stdout := lines; stderr := []; exited := None |}.

(** The body of [while True] in [main], for one line read by [input()]. *)
Definition command_loop_body (r : t) (line : string) : t * Output :=
  let command := strip line in
  if decide (command = "") then (r, reply [])
  else
    let parts := split command in
    let other_commands :=
      if decide (command = "bat") then (r, reply [print_battery r])
      else if decide (command = "pos") then (r, reply [print_position r])
      else if decide (command = "tr") then (r, reply [fst (check_treasure r)])
      else if decide (command = "exit")
      then (r, {| stdout := [print_position r; print_battery r];
                  stderr := []; exited := Some (ExitStatus 0) |})
      else (r, {| stdout := []; stderr := ["Invalid command"]; exited := None |})
    in
    match parts with
    | [verb; arg] =>
        if decide (verb = "mv")
        then let '(r', out) := move r arg in (r', reply [out])
        else other_commands
    | _ => other_commands
    end.

(** What can happen to a running robot: a line arrives on stdin, stdin
    reaches its end, or a signal is delivered (the alarm is the one-second
    timer). *)
Inductive Event :=
| Line (line : string)
| Eof
| Sig (signum : Signal).

Definition step (r : t) (e : Event) : t * Output :=
  match e with
  | Line line => command_loop_body r line
  | Eof =>                            (* [EOFError]: [sys.exit(0)] *)
      (r, {| stdout := []; stderr := []; exited := Some (ExitStatus 0) |})
  | Sig SIGTERM =>
      (r, {| stdout := []; stderr := []; exited := Some (KilledBy SIGTERM) |})
  | Sig signum =>
      let '(r', err) := signal_handler r signum in
      (r', {| stdout := []; stderr := err; exited := None |})
  end.

(** The state of a robot started in [r] once the events [es], oldest
    first, have been served; [None] when the process ended on the way. *)
Fixpoint run (r : t) (es : list Event) : option t :=
  match es with
  | [] => Some r
  | e :: rest =>
      let '(r', out) := step r e in
      match exited out with
      | None => run r' rest
      | Some _ => None
      end
  end.

(** The four directions of the protocol, their names on the wire and the
    neighbouring cell each one designates. *)
Inductive Direction := Up | Down | Left | Right.

Definition direction_name (d : Direction) : string :=
  match d with
  | Up => "up" | Down => "down" | Left => "left" | Right => "right"
  end.

Definition adjacent (d : Direction) (p : Z * Z) : Z * Z :=
  match d with
  | Up => (p.1 - 1, p.2)
  | Down => (p.1 + 1, p.2)
  | Left => (p.1, p.2 - 1)
  | Right => (p.1, p.2 + 1)
  end.

(** The four conditions under which a move towards cell [target] is to
    succeed. *)
Definition move_allowed (r : t) (target : Z * Z) : Prop :=
  suspended r = false /\ 5 <= battery r /\
  in_room (sensor r) target /\
  Sensor.with_obstacle (sensor r) target.1 target.2 = false.

End Robot.

(** ** More Python primitives, used by master.py *)

(** [s.replace(c, '')] for a one-character [c]. *)
Fixpoint remove_char (c : ascii) (s : string) : string :=
  match s with
  | String a t =>
      if decide (a = c) then remove_char c t else String a (remove_char c t)
  | EmptyString => EmptyString
  end.

(** [s.split(sep)] for a one-character [sep]; [cur] is the field read so
    far, most recent character first. *)
Fixpoint split_on_go (sep : ascii) (cur : string) (s : string) : list string :=
  match s with
  | EmptyString => [String.rev cur]
  | String a t =>
      if decide (a = sep)
      then String.rev cur :: split_on_go sep EmptyString t
      else split_on_go sep (String a cur) t
  end.

Definition split_on (sep : ascii) (s : string) : list string :=
  split_on_go sep EmptyString s.

(** Decimal digits with single underscores between them, as [int] reads
    them; [prev] tells whether the previous character was a digit. *)
Fixpoint int_digits (acc : Z) (prev : bool) (s : string) : option Z :=
  match s with
  | EmptyString => if prev then Some acc else None
  | String c t =>
      match Ascii.is_nat c with
      | Some d => int_digits (10 * acc + Z.of_nat d) true t
      | None =>
          if decide (c = "_"%char) then
            if prev then int_digits acc false t else None
          else None
      end
  end.

(** [int(s)] on ASCII text: blanks around, an optional sign, then digits.
    [None] stands for [ValueError]. *)
Definition py_int (s : string) : option Z :=
  match strip s with
  | String "-" t => Z.opp <$> int_digits 0 false t
  | String "+" t => int_digits 0 false t
  | t => int_digits 0 false t
  end.

(** Index of [lst[i]] for a list of length [len]: negative indices count
    from the end; [None] stands for [IndexError]. *)
Definition py_index (len : nat) (i : Z) : option nat :=
  if (0 <=? i) && (i <? Z.of_nat len) then Some (Z.to_nat i)
  else if (- Z.of_nat len <=? i) && (i <? 0) then Some (Z.to_nat (i + Z.of_nat len))
  else None.

(** [grid[row][col] = v] *)
Definition grid_set (grid : list (list string)) (row col : Z) (v : string)
  : option (list (list string)) :=
  i ← py_index (length grid) row;
  line ← grid !! i;
  j ← py_index (length line) col;
  Some (<[i := <[j := v]> line]> grid).

(** [range(n)] *)
Definition range (n : Z) : list Z := seqZ 0 n.

(** ** master.py *)
Module Master.

(** One value of the [robots] dictionary. Its two pipe ends are the
    channel to the robot's process, whose behaviour is given by the
    [inbox] of the world below. *)
Record AgentRecord := {
  pid : Z;
  position : Z * Z
}.

(** The [Master] object. *)
Record t := {
  sensor : Sensor.t;
  dimensions : Z * Z;
  n_treasures : Z;
  treasures_found : Z;
  robots : list (Z * AgentRecord);        (* insertion order *)
  room_info : list (list string);
  discovered_treasures : gset (Z * Z);
  treasure_positions : gset (Z * Z)
}.

(** What the channel to a robot does on one [send_command]. *)
Inductive Outcome :=
| ProcessGone                       (* [os.kill(pid, 0)]: ProcessLookupError *)
| WriteFault (e : string)           (* [write]/[flush] raises OSError *)
| Timeout                           (* [select] returns nothing in 2 s *)
| ReadFault (e : string)            (* [readline] raises OSError *)
| Reply (line : string).            (* [readline] returns this line *)

(** What the master does to the outside. *)
Inductive Event :=
| Fork (child_pid : Z) (robot_id row col : Z) (* child runs robot.py *)
| Kill (target : Z) (signum : option Signal)  (* [None]: signal 0 *)
| Write (robot_id : Z) (line : string)
| Print (line : string)
| PrintErr (line : string)
| ExitProgram.                                (* [exit_program] entered *)

Global Instance Event_eq_dec : EqDecision Event.
Proof. solve_decision. Defined.

Inductive Exn :=
| KeyError (key : Z)
| IndexError
| ValueError
| SystemExit (code : Z).

(** The master together with its environment: the outcomes of the
    exchanges to come (none left: the robots stay silent), the pid the
    system gives to the child forked for each robot, and the events so
    far, oldest first. *)
Record World := {
  self : t;
  inbox : list Outcome;
  fork_pid : Z -> Z;
  trace : list Event
}.

Inductive Result (A : Type) :=
| Ok (a : A) (w : World)
| Raise (e : Exn) (w : World).
Arguments Ok {A} a w.
Arguments Raise {A} e w.

Definition M (A : Type) : Type := World -> Result A.

Global Instance M_ret : MRet M := fun A a w => Ok a w.
Global Instance M_bind : MBind M := fun A B f c w =>
  match c w with
  | Ok a w' => f a w'
  | Raise e w' => Raise e w'
  end.

Definition raise {A} (e : Exn) : M A := fun w => Raise e w.
Definition get : M t := fun w => Ok (self w) w.
Definition modify (f : t -> t) : M unit := fun w =>
  Ok tt {| self := f (self w); inbox := inbox w;
           fork_pid := fork_pid w; trace := trace w |}.
Definition emit (e : Event) : M unit := fun w =>
  Ok tt {| self := self w; inbox := inbox w;
           fork_pid := fork_pid w; trace := trace w ++ [e] |}.
(** The outcome of the next exchange, and the reading of it. *)
Definition upcoming (w : World) : Outcome :=
  match inbox w with
  | [] => Timeout
  | o :: _ => o
  end.
Definition next_outcome : M Outcome := fun w =>
  Ok (upcoming w) {| self := self w; inbox := tail (inbox w);
                     fork_pid := fork_pid w; trace := trace w |}.
Definition fork (robot_id row col : Z) : M Z := fun w =>
  Ok (fork_pid w robot_id)
     {| self := self w; inbox := inbox w; fork_pid := fork_pid w;
        trace := trace w ++ [Fork (fork_pid w robot_id) robot_id row col] |}.

(** [for x in xs: body(x)] *)
Fixpoint for_each {A} (xs : list A) (body : A -> M unit) : M unit :=
  match xs with
  | [] => mret tt
  | x :: rest => body x;; for_each rest body
  end.

(** Field updates of the [Master] object. *)
Definition set_treasures_found (v : Z) (m : t) : t :=
  {| sensor := sensor m; dimensions := dimensions m;
     n_treasures := n_treasures m; treasures_found := v;
     robots := robots m; room_info := room_info m;
     discovered_treasures := discovered_treasures m;
     treasure_positions := treasure_positions m |}.

Definition set_robots (v : list (Z * AgentRecord)) (m : t) : t :=
  {| sensor := sensor m; dimensions := dimensions m;
     n_treasures := n_treasures m; treasures_found := treasures_found m;
     robots := v; room_info := room_info m;
     discovered_treasures := discovered_treasures m;
     treasure_positions := treasure_positions m |}.

Definition set_room_info (v : list (list string)) (m : t) : t :=
  {| sensor := sensor m; dimensions := dimensions m;
     n_treasures := n_treasures m; treasures_found := treasures_found m;
     robots := robots m; room_info := v;
     discovered_treasures := discovered_treasures m;
     treasure_positions := treasure_positions m |}.

Definition set_discovered_treasures (v : gset (Z * Z)) (m : t) : t :=
  {| sensor := sensor m; dimensions := dimensions m;
     n_treasures := n_treasures m; treasures_found := treasures_found m;
     robots := robots m; room_info := room_info m;
     discovered_treasures := v;
     treasure_positions := treasure_positions m |}.

(** [d[k]] and [d[k] = v] on the dictionary kept in insertion order. *)
Fixpoint dict_get (d : list (Z * AgentRecord)) (k : Z) : option AgentRecord :=
  match d with
  | [] => None
  | (k', v) :: rest => if decide (k' = k) then Some v else dict_get rest k
  end.

Fixpoint dict_set (d : list (Z * AgentRecord)) (k : Z) (v : AgentRecord)
  : list (Z * AgentRecord) :=
  match d with
  | [] => [(k, v)]
  | (k', v') :: rest =>
      if decide (k' = k) then (k, v) :: rest else (k', v') :: dict_set rest k v
  end.

(** [self.robots[robot_id]] *)
Definition robot_of (robot_id : Z) : M AgentRecord :=
  m ← get;
  match dict_get (robots m) robot_id with
  | Some rec => mret rec
  | None => raise (KeyError robot_id)
  end.

(** [self.room_info[row][col] = v] *)
Definition room_info_set (row col : Z) (v : string) : M unit :=
  m ← get;
  match grid_set (room_info m) row col v with
  | Some g => modify (set_room_info g)
  | None => raise IndexError
  end.

Definition print (line : string) : M unit := emit (Print line).
Definition print_err (line : string) : M unit := emit (PrintErr line).

(** [Master.initialize_room_info], in its second definition, which is the
    one in force: the body of the two nested loops for cell [(i, j)]. *)
Definition scan_cell (s : Sensor.t)
    (acc : list (list string) * gset (Z * Z)) (ij : Z * Z)
  : list (list string) * gset (Z * Z) :=
  let '(i, j) := ij in
  if Sensor.with_obstacle s i j
  then (default acc.1 (grid_set acc.1 i j "X"), acc.2)
  else if Sensor.with_treasure s i j
  then (acc.1, acc.2 ∪ {[ (i, j) ]})
  else acc.

Definition initialize_room_info (s : Sensor.t)
  : list (list string) * gset (Z * Z) :=
  let '(rows, cols) := Sensor.dimensions s in
  let blank := replicate (Z.to_nat rows) (replicate (Z.to_nat cols) "?") in
  foldl (scan_cell s) (blank, ∅)
        (i ← range rows; j ← range cols; [(i, j)]).

(** [Master.exit_program]. Whatever happens in its body, which swallows
    every exception of its own, it ends with [sys.exit(0)]. Its being entered
    and that exit are what is recorded here; the last queries to the robots,
    the closing of the pipes and the wait for the children, which come in
    between, are left out. *)
Definition exit_program : M unit :=
  emit ExitProgram;; raise (SystemExit 0).

(** Lines 59-60 of [initialize_robots]: one line of the robots file is
    read as a position, or an exception is raised. *)
Definition parse_position (line : string) : Exn + Z * Z :=
  let pos := split_on "," (remove_char ")" (remove_char "(" (strip line))) in
  match pos with
  | [] => inl IndexError
  | p0 :: rest =>
      match py_int p0 with
      | None => inl ValueError
      | Some row =>
          match rest with
          | [] => inl IndexError
          | p1 :: _ =>
              match py_int p1 with
              | None => inl ValueError
              | Some col => inr (row, col)
              end
          end
      end
  end.

Definition of_sum {A} (x : Exn + A) : M A :=
  match x with
  | inl e => raise e
  | inr a => mret a
  end.

(** Does some robot of the dictionary stand at [p]? *)
Definition occupied (d : list (Z * AgentRecord)) (p : Z * Z) : bool :=
  existsb (fun kv => bool_decide (position kv.2 = p)) d.

Definition show_pos (row col : Z) : string :=
  "(" +:+ pretty row +:+ ", " +:+ pretty col +:+ ")".

(** The body of the loop of [initialize_robots] for robot [i]. *)
Definition initialize_robot (i : Z) (line : string) : M unit :=
  '(row, col) ← of_sum (parse_position line);
  m ← get;
  if Sensor.with_obstacle (sensor m) row col then
    print_err ("Invalid initial position for robot at " +:+ show_pos row col);;
    raise (SystemExit 1)
  else if occupied (robots m) (row, col) then
    print_err ("Invalid initial position for robot at " +:+ show_pos row col
               +:+ ": position already occupied");;
    raise (SystemExit 1)
  else
    child ← fork i row col;
    modify (fun m => set_robots
      (dict_set (robots m) i {| pid := child; position := (row, col) |}) m);;
    (if decide ((row, col) ∈ treasure_positions m) then
       room_info_set row col "RT";;
       modify (fun m => set_discovered_treasures
                 (discovered_treasures m ∪ {[ (row, col) ]}) m);;
       modify (fun m => set_treasures_found (treasures_found m + 1) m);;
       print ("Treasure found by robot " +:+ pretty i +:+ "!")
     else
       room_info_set row col "R");;
    print ("Robot " +:+ pretty i +:+ " PID: " +:+ pretty child
           +:+ " Position: " +:+ show_pos row col).

(** [enumerate(xs, 1)] *)
Definition enumerate1 {A} (xs : list A) : list (Z * A) :=
  zip (seqZ 1 (Z.of_nat (length xs))) xs.

(** [Master.initialize_robots], given the lines of the robots file. *)
Definition initialize_robots (robot_positions : list string) : M unit :=
  for_each (enumerate1 robot_positions)
           (fun ip => initialize_robot ip.1 ip.2).

(** [Master.__init__] *)
Definition new (s : Sensor.t) : t :=
  let '(grid, treasures) := initialize_room_info s in
  {| sensor := s; dimensions := Sensor.dimensions s;
     n_treasures := Sensor.n_treasures s; treasures_found := 0;
     robots := []; room_info := grid;
     discovered_treasures := ∅; treasure_positions := treasures |}.

(** [Master.print_room] *)
Definition join (sep : string) (xs : list string) : string :=
  match xs with
  | [] => ""
  | x :: rest => foldl (fun acc y => acc +:+ sep +:+ y) x rest
  end.

Definition print_room : M unit :=
  print "Our information about the room so far:";;
  m ← get;
  for_each (room_info m) (fun row => print (join " " row)).

(** The [except (IOError, BrokenPipeError)] handler of [send_command]. *)
Definition communication_error (robot_id : Z) (e : string) : M string :=
  print_err ("Communication error with robot " +:+ pretty robot_id
             +:+ ": " +:+ e);;
  rec ← robot_of robot_id;
  emit (Kill (pid rec) (Some SIGTERM));;
  mret "Error".

(** [Master.send_command] *)
Definition send_command (robot_id : Z) (command : string) : M string :=
  rec ← robot_of robot_id;
  emit (Kill (pid rec) None);;
  outcome ← next_outcome;
  match outcome with
  | ProcessGone =>
      print_err ("Robot " +:+ pretty robot_id +:+ " is no longer running");;
      mret "Error"
  | WriteFault e => communication_error robot_id e
  | Timeout =>
      emit (Write robot_id command);;
      print_err ("Timeout waiting for response from robot "
                 +:+ pretty robot_id);;
      mret "Error"
  | ReadFault e =>
      emit (Write robot_id command);;
      communication_error robot_id e
  | Reply line =>
      emit (Write robot_id command);;
      let response := strip line in
      (if py_in "Treasure" response then
         modify (fun m => set_treasures_found (treasures_found m + 1) m);;
         rec ← robot_of robot_id;
         let '(row, col) := position rec in
         room_info_set row col "T";;
         print ("Treasure found by robot " +:+ pretty robot_id +:+ "!");;
         m ← get;
         if decide (treasures_found m = n_treasures m)
         then exit_program else mret tt
       else mret tt);;
      mret response
  end.

(** The first robot other than [robot_id] recorded at [p], if any. *)
Definition other_robot_at (d : list (Z * AgentRecord)) (robot_id : Z)
    (p : Z * Z) : option (Z * AgentRecord) :=
  List.find (fun kv => bool_decide (kv.1 <> robot_id)
                       && bool_decide (position kv.2 = p)) d.

(** [self.robots[robot_id]["position"] = p] *)
Definition set_position (robot_id : Z) (p : Z * Z) : M unit :=
  rec ← robot_of robot_id;
  modify (fun m => set_robots
    (dict_set (robots m) robot_id {| pid := pid rec; position := p |}) m).

(** Lines 175-185 of [move_robot]: the cell the robot is asked to go to. *)
Definition new_position (old : Z * Z) (direction : string) : Z * Z :=
  let '(old_row, old_col) := old in
  if decide (direction = "up") then (old_row - 1, old_col)
  else if decide (direction = "down") then (old_row + 1, old_col)
  else if decide (direction = "left") then (old_row, old_col - 1)
  else if decide (direction = "right") then (old_row, old_col + 1)
  else (old_row, old_col).

(** [Master.move_robot] *)
Definition move_robot (robot_id : Z) (direction : string) : M bool :=
  rec ← robot_of robot_id;
  let '(old_row, old_col) := position rec in
  let '(new_row, new_col) := new_position (old_row, old_col) direction in
  m ← get;
  match other_robot_at (robots m) robot_id (new_row, new_col) with
  | Some (other_id, _) =>
      print ("Collision between robot " +:+ pretty robot_id +:+ " and "
             +:+ pretty other_id);;
      mret false
  | None =>
      response ← send_command robot_id ("mv " +:+ direction);
      print ("Robot " +:+ pretty robot_id +:+ " status: " +:+ response);;
      if py_in "OK" response then
        m ← get;
        (match other_robot_at (robots m) robot_id (old_row, old_col) with
         | Some _ => mret tt
         | None =>
             if decide ((old_row, old_col) ∈ treasure_positions m)
             then room_info_set old_row old_col "T"
             else room_info_set old_row old_col "-"
         end);;
        (if decide ((new_row, new_col) ∈ treasure_positions m) then
           room_info_set new_row new_col "RT";;
           m ← get;
           if decide ((new_row, new_col) ∈ discovered_treasures m) then mret tt
           else
             modify (fun m => set_treasures_found (treasures_found m + 1) m);;
             modify (fun m => set_discovered_treasures
                       (discovered_treasures m ∪ {[ (new_row, new_col) ]}) m);;
             print ("Treasure found by robot " +:+ pretty robot_id +:+ "!");;
             m ← get;
             if decide (treasures_found m = n_treasures m) then
               print "All treasures found!";; exit_program
             else mret tt
         else room_info_set new_row new_col "R");;
        set_position robot_id (new_row, new_col);;
        mret true
      else if py_in "OK" response then
        (* the second test of the source, never reached *)
        room_info_set old_row old_col "-";;
        room_info_set new_row new_col "R";;
        set_position robot_id (new_row, new_col);;
        mret true
      else mret false
  end.

(** [os.kill(self.robots[rid]["pid"], signum)] *)
Definition kill_robot (rid : Z) (signum : Signal) : M unit :=
  rec ← robot_of rid;
  emit (Kill (pid rec) (Some signum)).

(** The query commands [bat] and [pos] for one robot. *)
Definition query_robot (rid : Z) (command : string) : M unit :=
  response ← send_command rid command;
  rec ← robot_of rid;
  print ("Robot " +:+ pretty rid +:+ " pid: " +:+ pretty (pid rec)
         +:+ " status:" +:+ response).

Definition room_after_movement : M unit :=
  print (String "010" "Room state after movement:");;
  print_room.

(** The keys of the dictionary, in insertion order. *)
Definition keys (d : list (Z * AgentRecord)) : list Z := d.*1.

(** The branches [bat], [pos], [suspend] and [resume] of
    [handle_command] have one shape: [usage] is the complaint about a
    wrong number of words, [action] what is done to one robot. *)
Definition one_or_all (parts : list string) (usage : string)
    (action : Z -> M unit) : M unit :=
  match parts with
  | [_; robot_id] =>
      if decide (robot_id = "all") then
        m ← get; for_each (keys (robots m)) action
      else
        match py_int robot_id with
        | Some rid => action rid
        | None => print_err "Invalid robot id"
        end
  | _ => print_err usage
  end.

(** [Master.handle_command] *)
Definition handle_command (command : string) : M unit :=
  let parts := split (strip command) in
  match parts with
  | [] => mret tt
  | verb :: _ =>
      if decide (verb = "mv") then
        match parts with
        | [_; robot_id; direction] =>
            if decide (robot_id = "all") then
              m ← get;
              for_each (merge_sort Z.le (keys (robots m)))
                       (fun rid => move_robot rid direction;; mret tt);;
              room_after_movement
            else
              match py_int robot_id with
              | Some rid =>
                  move_robot rid direction;;
                  room_after_movement
              | None => print_err "Invalid robot id"
              end
        | _ => print_err "Invalid move command"
        end
      else if decide (verb = "print") then print_room
      else if decide (verb = "bat") then
        one_or_all parts "Invalid battery command"
                   (fun rid => query_robot rid "bat")
      else if decide (verb = "pos") then
        one_or_all parts "Invalid position command"
                   (fun rid => query_robot rid "pos")
      else if decide (verb = "suspend") then
        one_or_all parts "Invalid suspend command"
                   (fun rid => kill_robot rid SIGINT)
      else if decide (verb = "resume") then
        one_or_all parts "Invalid resume command"
                   (fun rid => kill_robot rid SIGQUIT)
      else if decide (verb = "exit") then exit_program
      else mret tt
  end.

(** [Master.handle_signal] *)
Definition handle_signal (signum : Signal) : M unit :=
  match signum with
  | SIGINT =>
      print (String "010" "Received SIGINT, exiting...");;
      exit_program
  | SIGQUIT =>
      print (String "010" "Replenishing batteries");;
      m ← get; for_each (keys (robots m)) (fun rid => kill_robot rid SIGUSR1)
  | SIGTSTP =>
      m ← get; for_each (keys (robots m)) (fun rid => kill_robot rid SIGTSTP)
  | _ => mret tt
  end.

(** The command loop of [main] over the lines typed by the operator; the
    end of the list is the end of input, which leaves the loop. Only
    [EOFError] is caught there, so whatever [handle_command] raises ends
    the process. *)
Fixpoint command_loop (lines : list string) : M unit :=
  match lines with
  | [] => mret tt
  | command :: rest => handle_command command;; command_loop rest
  end.

(** [main], after the arguments are read: build the master, spawn the
    robots, show the room, serve the operator. *)
Definition main (s : Sensor.t) (robot_positions operator : list string)
  : M unit :=
  modify (fun _ => new s);;
  initialize_robots robot_positions;;
  print_room;;
  command_loop operator.

(** How the process ends: normally with status 0, by [sys.exit(code)],
    or on an exception nobody catches (a traceback and status 1). *)
Definition exit_status {A} (r : Result A) : Z :=
  match r with
  | Ok _ _ => 0
  | Raise (SystemExit code) _ => code
  | Raise _ _ => 1
  end.


Definition world_of {A} (r : Result A) : World :=
  match r with Ok _ w => w | Raise _ w => w end.

(** The processes forked so far. *)
Definition is_fork (e : Event) : bool :=
  match e with Fork _ _ _ _ => true | _ => false end.

Definition spawned (w : World) : list Event :=
  List.filter is_fork (trace w).

(** How many times the termination sequence was entered. *)
Definition terminations (w : World) : nat :=
  length (List.filter (fun e => bool_decide (e = ExitProgram)) (trace w)).

(** The events added between world [w] and a later world [w']. *)
Definition events_since (w w' : World) : list Event :=
  drop (length (trace w)) (trace w').

(** The exchange fails: no reply in time, or a fault on either pipe. *)
Definition channel_failure (o : Outcome) : Prop :=
  match o with
  | Timeout | WriteFault _ | ReadFault _ => True
  | ProcessGone | Reply _ => False
  end.

(** An empty world around master [m]: nothing has happened yet. *)
Definition world (m : t) (script : list Outcome) (pids : Z -> Z) : World :=
  {| self := m; inbox := script; fork_pid := pids; trace := [] |}.

End Master.

(** ** Rooms and worlds used as examples *)

(** A 5 x 5 room without obstacle or treasure. *)
Definition open_room : Sensor.t :=
  {| Sensor.dimensions := (5, 5); Sensor.n_treasures := 0;
     Sensor.with_obstacle := fun _ _ => false;
     Sensor.with_treasure := fun _ _ => false |}.

(** The same room with an obstacle on cell (2,2). *)
Definition blocked_start : Sensor.t :=
  {| Sensor.dimensions := (5, 5); Sensor.n_treasures := 0;
     Sensor.with_obstacle := fun row col => bool_decide ((row, col) = (2, 2));
     Sensor.with_treasure := fun _ _ => false |}.

(** [mv right] then [mv left], nothing in between. *)
Definition right_then_left (r : Robot.t) : Robot.t :=
  (Robot.move (Robot.move r "right").1 "left").1.

(** The open room with one robot at (0,0), as spawned from a one-line robots
    file, whose next exchange times out. *)
Definition silent_world : Master.World :=
  Master.world_of
    (Master.initialize_robots ["(0,0)"]
       (Master.world (Master.new open_room) [Master.Timeout] (fun i => 100 + i))).

(** The same, the robot answering KO. *)
Definition refusing_world : Master.World :=
  Master.world_of
    (Master.initialize_robots ["(0,0)"]
       (Master.world (Master.new open_room) [Master.Reply "KO"] (fun i => 100 + i))).



(** The grid has the dimensions announced by the room description. *)
Definition grid_shape (s : Sensor.t) (g : list (list string)) : Prop :=
  length g = Z.to_nat (Sensor.dimensions s).1 /\
  Forall (fun line => length line = Z.to_nat (Sensor.dimensions s).2) g.


(** The 3 x 3 room with an obstacle at (1,1) and its one treasure at (0,2). *)
Definition one_treasure_room : Sensor.t :=
  {| Sensor.dimensions := (3, 3); Sensor.n_treasures := 1;
     Sensor.with_obstacle := fun row col => bool_decide ((row, col) = (1, 1));
     Sensor.with_treasure := fun row col => bool_decide ((row, col) = (0, 2)) |}.



(** The counter of found treasures agrees with the set of discovered ones. *)
Definition ledger_agrees (m : Master.t) : Prop :=
  Master.treasures_found m = Z.of_nat (size (Master.discovered_treasures m)).

(** The next exchange does not bring a line with the treasure marker. *)
Definition plain_exchange (w : Master.World) : Prop :=
  match Master.upcoming w with
  | Master.Reply line => py_in "Treasure" (strip line) = false
  | _ => True
  end.

(** What holds of the ledger while the robots are being spawned, [i] being
    the next id: every discovered treasure lies under a registered robot. *)
Record counting (w : Master.World) (i : Z) : Prop := {
  counting_ledger : ledger_agrees (Master.self w);
  counting_discovered :
    forall p, p ∈ Master.discovered_treasures (Master.self w) ->
              Master.occupied (Master.robots (Master.self w)) p = true;
  counting_fresh :
    forall k, i <= k -> Master.dict_get (Master.robots (Master.self w)) k = None
}.


(** ** The start of the two programs *)

(** [main] of robot.py up to the creation of the robot (lines 160-193). *)
Module RobotMain.

(** What the command line says about the robot to create. *)
Record Options := {
  position : Z * Z;
  battery : Z;
  room_file : option string
}.

(** The [while i < len(args)] loop over the optional arguments; an option
    that lacks its values is skipped like any unknown word. [ValueError] is
    what [int] raises. *)
Fixpoint process_options (args : list string) (o : Options)
  : Master.Exn + Options :=
  match args with
  | [] => inr o
  | a :: rest =>
      let skip := process_options rest o in
      if decide (a = "-pos") then
        match rest with
        | p1 :: p2 :: rest' =>
            match py_int p1, py_int p2 with
            | Some row, Some col =>
                process_options rest'
                  {| position := (row, col); battery := battery o;
                     room_file := room_file o |}
            | _, _ => inl Master.ValueError
            end
        | _ => skip
        end
      else if decide (a = "-b") then
        match rest with
        | b :: rest' =>
            match py_int b with
            | Some level =>
                process_options rest'
                  {| position := position o; battery := level;
                     room_file := room_file o |}
            | None => inl Master.ValueError
            end
        | [] => skip
        end
      else if decide (a = "-f") then
        match rest with
        | f :: rest' =>
            process_options rest'
              {| position := position o; battery := battery o;
                 room_file := Some f |}
        | [] => skip
        end
      else skip
  end.

(** The robot to create, [load] being [sensor.Sensor] reading a room
    file; [argv] is [sys.argv[1:]]. *)
Definition start (load : string -> Sensor.t) (argv : list string)
  : Master.Exn + Robot.t :=
  match argv with
  | [] => inl (Master.SystemExit 1)           (* "Missing arguments" *)
  | a0 :: rest =>
      match py_int a0 with
      | None => inl Master.ValueError
      | Some robot_id =>
          match process_options rest
                  {| position := (0, 0); battery := 100; room_file := None |} with
          | inl e => inl e
          | inr o =>
              match room_file o with
              | None => inl (Master.SystemExit 1)  (* "Missing room file" *)
              | Some f =>
                  if decide (f = "") then inl (Master.SystemExit 1)
                  else inr (Robot.init robot_id (position o) (battery o) (load f))
              end
          end
      end
  end.

End RobotMain.

(** The start of master.py (lines 397-419 and 84). *)
Module MasterMain.

(** The loop of [parse_arguments]; [None] is the exit with status 1 on an
    unknown argument. *)
Fixpoint scan_arguments (args : list string) (room_file robots_file : option string)
  : option (option string * option string) :=
  match args with
  | [] => Some (room_file, robots_file)
  | a :: rest =>
      match rest with
      | v :: rest' =>
          if decide (a = "-room") then scan_arguments rest' (Some v) robots_file
          else if decide (a = "-robots") then scan_arguments rest' room_file (Some v)
          else None
      | [] => None
      end
  end.

(** [parse_arguments]: the two file names, or the exit status. *)
Definition parse_arguments (args : list string) : Z + string * string :=
  match scan_arguments args None None with
  | Some (Some room_file, Some robots_file) =>
      if decide (room_file = "") then inl 1
      else if decide (robots_file = "") then inl 1
      else inr (room_file, robots_file)
  | _ => inl 1
  end.

(** The arguments the child process of robot [i] is started with: what
    follows [python3 robot.py] in the [execvp] of [initialize_robots]. *)
Definition robot_argv (i row col : Z) (room_file : string) : list string :=
  [pretty i; "-pos"; pretty row; pretty col; "-f"; room_file].

End MasterMain.

(** Every character of the string satisfies [P]. *)
Fixpoint all_chars (P : ascii -> Prop) (s : string) : Prop :=
  match s with
  | EmptyString => True
  | String c t => P c /\ all_chars P t
  end.


(** The character is a decimal digit. *)
Definition is_digit (c : ascii) : Prop := Ascii.is_nat c <> None.


(** The option [flag] occurs in [args] with value [v]. *)
Definition has_option (args : list string) (flag v : string) : Prop :=
  exists pre post : list string, args = pre ++ flag :: v :: post.

(** The cells on which the robots of the dictionary are recorded. *)
Definition cells (d : list (Z * Master.AgentRecord)) : list (Z * Z) :=
  Master.position <$> d.*2.

(** Computation [c] keeps property [P] of the master object, however it
    ends. *)
Definition preserved {A} (P : Master.t -> Prop) (c : Master.M A) : Prop :=
  forall w, P (Master.self w) -> P (Master.self (Master.world_of (c w))).

(** What the grid shows at cell [p], for a cell counted from the top left
    corner. *)
Definition cell_at (g : list (list string)) (p : Z * Z) : option string :=
  line ← g !! Z.to_nat p.1; line !! Z.to_nat p.2.

(** The robots of the master are well placed in room [s]: their ids are
    1, 2, ... in the order of their creation, no two of them are recorded on
    the same cell and none on an obstacle. *)
Definition well_placed (s : Sensor.t) (m : Master.t) : Prop :=
  Master.sensor m = s /\
  Master.keys (Master.robots m)
  = seqZ 1 (Z.of_nat (length (Master.robots m))) /\
  NoDup (cells (Master.robots m)) /\
  Forall (fun p => Sensor.with_obstacle s p.1 p.2 = false)
         (cells (Master.robots m)).

(** Two robots side by side in the open room: robot 1 at (0,0), robot 2 at
    (0,1); the first answers OK to the next command. *)
Definition side_by_side : Master.World :=
  Master.world_of
    (Master.initialize_robots ["(0,0)"; "(0,1)"]
       (Master.world (Master.new open_room) [Master.Reply "OK"] (fun i => 100 + i))).

(** Signal [signum] sent to the process of every robot of the dictionary,
    in its order. *)
Definition signal_all (d : list (Z * Master.AgentRecord)) (signum : Signal)
  : list Master.Event :=
  (fun kv => Master.Kill (Master.pid kv.2) (Some signum)) <$> d.

(** What the grid is to show at cell [q] once robot [robot_id] has moved
    from [old] to [new]: the robot on its new cell, the cell it left as a
    found treasure or as explored ground unless another robot is recorded
    there, and every other cell as in [m]. *)
Definition drawn_after_move (m : Master.t) (robot_id : Z) (old new q : Z * Z)
  : option string :=
  if decide (new = q) then
    Some (if decide (new ∈ Master.treasure_positions m) then "RT" else "R")
  else if decide (old = q) then
    match Master.other_robot_at (Master.robots m) robot_id old with
    | Some _ => cell_at (Master.room_info m) q
    | None =>
        Some (if decide (old ∈ Master.treasure_positions m) then "T" else "-")
    end
  else cell_at (Master.room_info m) q.

(** Computation [c] keeps property [Q] of the master and its environment,
    however it ends. *)
Definition preserved_world {A} (Q : Master.World -> Prop) (c : Master.M A) : Prop :=
  forall w, Q w -> Q (Master.world_of (c w)).

(** The outcome is not a line with the treasure marker. *)
Definition plain_outcome (o : Master.Outcome) : Prop :=
  match o with
  | Master.Reply line => py_in "Treasure" (strip line) = false
  | _ => True
  end.

(** * Properties of the robot *)
Section RobotMove.

Lemma valid_move_spec (r : Robot.t) (p : Z * Z) :
  Robot.valid_move r p = true <->
  in_room (Robot.sensor r) p /\
  Sensor.with_obstacle (Robot.sensor r) p.1 p.2 = false.
Proof.
  unfold Robot.valid_move, in_room.
  destruct p as [row col]; destruct (Sensor.dimensions (Robot.sensor r)) as [rows cols].
  simpl.
  destruct (Z.ltb_spec row 0), (Z.ltb_spec col 0); simpl; try (split; [discriminate | lia]).
  destruct (Z.geb_spec row rows), (Z.geb_spec col cols); simpl; try (split; [discriminate | lia]).
  rewrite negb_true_iff. split; [intros ->; split; [lia | reflexivity] | tauto].
Qed.

Lemma move_allowed_dec (r : Robot.t) (p : Z * Z) :
  Robot.move_allowed r p \/ ~ Robot.move_allowed r p.
Proof.
  unfold Robot.move_allowed, in_room.
  destruct (Robot.suspended r); [right; intros [? _]; discriminate |].
  destruct (Sensor.with_obstacle _ _ _); [right; intros (_ & _ & _ & ?); discriminate |].
  destruct (decide (5 <= Robot.battery r)); [| right; tauto].
  destruct (decide (0 <= p.1 < (Sensor.dimensions (Robot.sensor r)).1)); [| right; tauto].
  destruct (decide (0 <= p.2 < (Sensor.dimensions (Robot.sensor r)).2)); [| right; tauto].
  left; tauto.
Qed.

(** What [move] does once its target cell is known. *)
Lemma move_towards (r : Robot.t) (direction : string) :
  let target := Robot.calculate_new_position r direction in
  (Robot.move_allowed r target ->
   Robot.move r direction =
     (Robot.set_battery (Robot.set_position r target) (Robot.battery r - 5), "OK")) /\
  (~ Robot.move_allowed r target -> Robot.move r direction = (r, "KO")).
Proof.
  intros target. unfold Robot.move. fold target.
  pose proof (valid_move_spec r target) as Hv.
  unfold Robot.move_allowed. split.
  - intros (Hs & Hb & Hin & Hobs). rewrite Hs.
    destruct (Z.ltb_spec (Robot.battery r) 5); [lia |].
    destruct (Robot.valid_move r target);
      [| destruct Hv as [_ Hv]; specialize (Hv (conj Hin Hobs)); discriminate Hv].
    unfold Robot.battery_decrease. simpl. rewrite Hs. simpl.
    unfold Robot.set_battery. simpl. f_equal. f_equal. lia.
  - intros Hno. destruct (Robot.suspended r); [reflexivity |].
    destruct (Z.ltb_spec (Robot.battery r) 5); [reflexivity |].
    destruct (Robot.valid_move r target); [| reflexivity].
    exfalso. apply Hno. destruct Hv as [Hv _]. specialize (Hv eq_refl). intuition lia.
Qed.

Lemma calculate_new_position_adjacent (r : Robot.t) (d : Robot.Direction) :
  Robot.calculate_new_position r (Robot.direction_name d) =
  Robot.adjacent d (Robot.position r).
Proof.
  unfold Robot.calculate_new_position. destruct (Robot.position r) as [row col].
  destruct d; reflexivity.
Qed.

End RobotMove.

(** C1. For every agent state and every direction, [move] replies OK,
    puts the agent on the adjacent cell in that direction and takes exactly 5
    off the battery if and only if the agent is not suspended, the battery is
    at least 5, the target cell is within the room and is not an obstacle; in
    every other case the reply is KO and nothing changes. *)
Theorem move_succeeds_iff_allowed (r : Robot.t) (d : Robot.Direction) :
  let target := Robot.adjacent d (Robot.position r) in
  let result := Robot.move r (Robot.direction_name d) in
  (result.2 = "OK" <-> Robot.move_allowed r target) /\
  (Robot.move_allowed r target ->
     result.2 = "OK" /\
     Robot.position result.1 = target /\
     Robot.battery result.1 = Robot.battery r - 5 /\
     Robot.suspended result.1 = Robot.suspended r /\
     Robot.id result.1 = Robot.id r /\
     Robot.sensor result.1 = Robot.sensor r) /\
  (~ Robot.move_allowed r target -> result = (r, "KO")).
Proof.
  intros target result.
  destruct (move_towards r (Robot.direction_name d)) as [Hok Hko].
  rewrite calculate_new_position_adjacent in Hok, Hko. fold target in Hok, Hko.
  fold result in Hok, Hko.
  split; [| split].
  - split; [| intros H; rewrite (Hok H); reflexivity].
    intros Hreply. destruct (move_allowed_dec r target) as [H | H]; [exact H |].
    rewrite (Hko H) in Hreply. discriminate Hreply.
  - intros H. rewrite (Hok H). simpl. tauto.
  - exact Hko.
Qed.

(** C9. For a direction string other than up, down, left and right, an
    agent that is not suspended, has at least 5 of battery and stands on a
    cell within the room that is not an obstacle is answered OK: the target
    computed is its own cell, so the position stays and the battery loses
    5. *)
Theorem move_unknown_direction_stays (r : Robot.t) (direction : string) :
  direction <> "up" -> direction <> "down" ->
  direction <> "left" -> direction <> "right" ->
  Robot.suspended r = false ->
  5 <= Robot.battery r ->
  in_room (Robot.sensor r) (Robot.position r) ->
  Sensor.with_obstacle (Robot.sensor r) (Robot.position r).1 (Robot.position r).2 = false ->
  Robot.calculate_new_position r direction = Robot.position r /\
  Robot.move r direction = (Robot.set_battery r (Robot.battery r - 5), "OK").
Proof.
  intros Hu Hd Hl Hr Hs Hb Hin Hobs.
  assert (Htarget : Robot.calculate_new_position r direction = Robot.position r).
  { unfold Robot.calculate_new_position. destruct (Robot.position r) as [row col].
    repeat case_decide; congruence. }
  split; [exact Htarget |].
  destruct (move_towards r direction) as [Hok _]. rewrite Htarget in Hok.
  rewrite Hok by (repeat split; try assumption; apply Hin).
  destruct r; reflexivity.
Qed.


Lemma move_unknown_direction_stays_witness :
  Robot.move (Robot.init 1 (2, 2) 100 open_room) "tr" =
  (Robot.set_battery (Robot.init 1 (2, 2) 100 open_room) 95, "OK").
Proof.
  refine (proj2 (move_unknown_direction_stays (Robot.init 1 (2, 2) 100 open_room) "tr"
            _ _ _ _ _ _ _ _));
    try discriminate; try reflexivity; unfold in_room; cbn; lia.
Defined.


(** C8, as stated, fails: the start cell (2,2) itself may be an obstacle
    (a robot started by hand with [-pos 2 2] is not checked), and then the
    move back is refused. *)
Lemma round_trip_needs_free_start :
  ~ (forall r : Robot.t,
       Robot.suspended r = false -> Robot.battery r = 100 ->
       Robot.position r = (2, 2) ->
       in_room (Robot.sensor r) (2, 1) ->
       in_room (Robot.sensor r) (2, 3) ->
       Sensor.with_obstacle (Robot.sensor r) 2 1 = false ->
       Sensor.with_obstacle (Robot.sensor r) 2 3 = false ->
       Robot.position (right_then_left r) = (2, 2) /\
       Robot.battery (right_then_left r) = 90).
Proof.
  intros H.
  specialize (H (Robot.init 1 (2, 2) 100 blocked_start)).
  assert (Hend : Robot.position (right_then_left (Robot.init 1 (2, 2) 100 blocked_start)) = (2, 3))
    by reflexivity.
  destruct H as [Hpos _]; try reflexivity; try (unfold in_room; cbn; lia).
  rewrite Hend in Hpos. discriminate Hpos.
Qed.

(** C8, amended: an agent that is not suspended, has battery 100 and
    stands at (2,2), with (2,1) and (2,3) within the room and free of
    obstacles and (2,2) itself free of obstacle, is back at (2,2) with battery
    exactly 90 after [mv right] then [mv left]. *)
Theorem round_trip_right_left (r : Robot.t) :
  Robot.suspended r = false -> Robot.battery r = 100 ->
  Robot.position r = (2, 2) ->
  in_room (Robot.sensor r) (2, 1) ->
  in_room (Robot.sensor r) (2, 3) ->
  Sensor.with_obstacle (Robot.sensor r) 2 1 = false ->
  Sensor.with_obstacle (Robot.sensor r) 2 3 = false ->
  Sensor.with_obstacle (Robot.sensor r) 2 2 = false ->
  Robot.move r "right" = (Robot.set_battery (Robot.set_position r (2, 3)) 95, "OK") /\
  Robot.move (Robot.move r "right").1 "left" = (Robot.set_battery r 90, "OK") /\
  Robot.position (right_then_left r) = (2, 2) /\
  Robot.battery (right_then_left r) = 90.
Proof.
  intros Hs Hb Hp [_ H1] [H3r H3c] _ Hfree3 Hfree2. simpl in H3r, H3c.
  destruct (move_towards r "right") as [Hright _].
  assert (Hfirst : Robot.move r "right"
                   = (Robot.set_battery (Robot.set_position r (2, 3)) 95, "OK")).
  { replace (Robot.calculate_new_position r "right") with (2, 3) in Hright
      by (unfold Robot.calculate_new_position; rewrite Hp; reflexivity).
    rewrite Hright by (repeat split; simpl; try assumption; lia).
    rewrite Hb. reflexivity. }
  set (r1 := Robot.set_battery (Robot.set_position r (2, 3)) 95).
  destruct (move_towards r1 "left") as [Hleft _].
  assert (Hsecond : Robot.move r1 "left" = (Robot.set_battery r 90, "OK")).
  { replace (Robot.calculate_new_position r1 "left") with (2, 2) in Hleft
      by reflexivity.
    rewrite Hleft by (repeat split; simpl; try assumption; lia).
    destruct r; simpl in *; subst; reflexivity. }
  unfold right_then_left. rewrite Hfirst. simpl. fold r1. rewrite Hsecond.
  simpl. auto.
Qed.

Lemma round_trip_right_left_witness :
  Robot.position (right_then_left (Robot.init 1 (2, 2) 100 open_room)) = (2, 2) /\
  Robot.battery (right_then_left (Robot.init 1 (2, 2) 100 open_room)) = 90.
Proof.
  refine (proj2 (proj2 (round_trip_right_left (Robot.init 1 (2, 2) 100 open_room)
            _ _ _ _ _ _ _ _)));
    try reflexivity; unfold in_room; cbn; lia.
Defined.

Section Battery.

Lemma battery_decrease_bounds (r : Robot.t) (n : Z) :
  0 <= n -> 0 <= Robot.battery r <= 100 ->
  0 <= Robot.battery (Robot.battery_decrease r n) <= 100.
Proof.
  intros Hn Hb. unfold Robot.battery_decrease.
  destruct (Robot.suspended r); simpl; lia.
Qed.

Lemma move_battery (r : Robot.t) (direction : string) :
  Robot.battery (Robot.move r direction).1 = Robot.battery r \/
  (5 <= Robot.battery r /\
   Robot.battery (Robot.move r direction).1 = Robot.battery r - 5).
Proof.
  unfold Robot.move.
  destruct (Robot.suspended r) eqn:Hs; [left; reflexivity |].
  destruct (Z.ltb_spec (Robot.battery r) 5); [left; reflexivity |].
  destruct (Robot.valid_move _ _); [| left; reflexivity].
  right. split; [assumption |].
  unfold Robot.battery_decrease. simpl. rewrite Hs. simpl. lia.
Qed.

Lemma command_loop_body_battery (r : Robot.t) (line : string) :
  Robot.battery (Robot.command_loop_body r line).1 = Robot.battery r \/
  (5 <= Robot.battery r /\
   Robot.battery (Robot.command_loop_body r line).1 = Robot.battery r - 5).
Proof.
  unfold Robot.command_loop_body.
  destruct (decide (strip line = "")); [left; reflexivity |].
  assert (Hother : forall o : Robot.Output, (r, o).1 = r) by reflexivity.
  destruct (split (strip line)) as [| verb [| arg [| ? ?]]];
    try (left; repeat case_decide; reflexivity).
  destruct (decide (verb = "mv")); [| left; repeat case_decide; reflexivity].
  pose proof (move_battery r arg) as Hm.
  destruct (Robot.move r arg) as [r' out]. exact Hm.
Qed.

(** The battery after one event, against the battery before it. *)
Lemma step_battery (r : Robot.t) (e : Robot.Event) :
  e = Robot.Sig SIGUSR1 /\ Robot.battery (Robot.step r e).1 = 100 \/
  e <> Robot.Sig SIGUSR1 /\
  (Robot.battery (Robot.step r e).1 = Robot.battery r \/
   Robot.battery (Robot.step r e).1 = Z.max 0 (Robot.battery r - 1) \/
   (5 <= Robot.battery r /\
    Robot.battery (Robot.step r e).1 = Robot.battery r - 5)).
Proof.
  destruct e as [line | | []]; simpl;
    try (right; split; [discriminate | left; reflexivity]).
  - right. split; [discriminate |].
    destruct (command_loop_body_battery r line) as [H | H]; auto.
  - left. split; reflexivity.
  - right. split; [discriminate |].
    unfold Robot.battery_decrease. destruct (Robot.suspended r); simpl; auto.
Qed.


End Battery.


(** A full battery also outlives the Refill that filled it: here through a
    position query. *)
Example full_battery_after_query :
  Robot.battery <$> Robot.run (Robot.init 1 (0, 0) 50 open_room)
                              [Robot.Sig SIGUSR1; Robot.Line "pos"]
  = Some 100.
Proof. reflexivity. Qed.



(** * Properties of the master *)

Import Master.

(** Unfolds the plumbing of the state-and-exception monad. *)
Ltac exec :=
  repeat (progress (unfold mbind, M_bind, mret, M_ret, get, modify, emit,
                    raise, print, print_err, of_sum, next_outcome, upcoming;
                    cbn [self inbox fork_pid trace tail
                         sensor dimensions n_treasures treasures_found robots
                         room_info discovered_treasures treasure_positions
                         set_treasures_found set_robots set_room_info
                         set_discovered_treasures])).

(** Case analysis on the first test the goal is waiting for. *)
Ltac branch :=
  match goal with
  | |- context [match ?x with _ => _ end] =>
      lazymatch x with
      | context [match _ with _ => _ end] => fail
      | _ => destruct x eqn:?
      end
  end.

Section SendCommand.

Lemma events_since_app (w w' : World) (evs : list Event) :
  trace w' = trace w ++ evs -> events_since w w' = evs.
Proof.
  intros H. unfold events_since. rewrite H. apply drop_app_length.
Qed.

(** A failed exchange with a registered robot: the reply is the Error
    response, the master object is as before, and the events are the
    liveness probe, the write if it went through, the diagnostic and, for
    a fault only, the SIGTERM sent to the robot. *)
Lemma send_command_failure_events (w : World) (robot_id : Z)
    (command : string) (rec : AgentRecord) :
  dict_get (robots (self w)) robot_id = Some rec ->
  channel_failure (upcoming w) ->
  exists w', send_command robot_id command w = Ok "Error" w' /\
    self w' = self w /\ inbox w' = tail (inbox w) /\
    events_since w w' =
      match upcoming w with
      | Timeout =>
          [Kill (pid rec) None; Write robot_id command;
           PrintErr ("Timeout waiting for response from robot " +:+ pretty robot_id)]
      | WriteFault e =>
          [Kill (pid rec) None;
           PrintErr ("Communication error with robot " +:+ pretty robot_id +:+ ": " +:+ e);
           Kill (pid rec) (Some SIGTERM)]
      | ReadFault e =>
          [Kill (pid rec) None; Write robot_id command;
           PrintErr ("Communication error with robot " +:+ pretty robot_id +:+ ": " +:+ e);
           Kill (pid rec) (Some SIGTERM)]
      | _ => []
      end.
Proof.
  intros Hrec Hfail.
  unfold send_command, communication_error, robot_of, upcoming in *.
  exec. rewrite Hrec. exec.
  destruct (inbox w) as [| [] rest]; try contradiction; exec; rewrite ?Hrec; exec;
    eexists; (split; [reflexivity |]); cbn [self inbox trace];
    (split; [reflexivity |]); (split; [reflexivity |]);
    apply events_since_app; cbn [trace]; rewrite <- ?app_assoc; reflexivity.
Qed.

End SendCommand.


(** C5, as stated, fails: after a timeout no termination request is sent
    to the robot's process (and the record has no alive flag to clear). *)
Lemma timeout_sends_no_sigterm :
  ~ (forall (w : World) (robot_id : Z) (command : string) (rec : AgentRecord),
       dict_get (robots (self w)) robot_id = Some rec ->
       channel_failure (upcoming w) ->
       exists w', send_command robot_id command w = Ok "Error" w' /\
                  In (Kill (pid rec) (Some SIGTERM)) (events_since w w')).
Proof.
  intros H.
  destruct (H silent_world 1 "bat" {| pid := 101; position := (0, 0) |})
    as (w' & Hsend & Hkill); [reflexivity | exact I |].
  vm_compute in Hsend. injection Hsend as <-.
  vm_compute in Hkill. intuition discriminate.
Qed.

(** C5, amended: for every call to sendCommand to a registered robot in
    which no reply arrives within the timeout or an I/O fault occurs on
    either direction of the channel, the call returns the Error response and
    leaves the master's records as they were (an AgentRecord has no alive
    flag); a termination request (SIGTERM) is sent to the robot's process
    when the failure is an I/O fault, and none when it is a timeout. *)
Theorem send_command_failure (w : World) (robot_id : Z) (command : string)
    (rec : AgentRecord) :
  dict_get (robots (self w)) robot_id = Some rec ->
  channel_failure (upcoming w) ->
  exists w', send_command robot_id command w = Ok "Error" w' /\
    self w' = self w /\
    (In (Kill (pid rec) (Some SIGTERM)) (events_since w w') <->
     upcoming w <> Timeout).
Proof.
  intros Hrec Hfail.
  destruct (send_command_failure_events w robot_id command rec Hrec Hfail)
    as (w' & Hsend & Hself & _ & Hev).
  exists w'. split; [exact Hsend |]. split; [exact Hself |].
  rewrite Hev. destruct (upcoming w); try contradiction; simpl.
  - split; [intros _; discriminate | intros _; auto].
  - split; [| congruence]. intros [H | [H | [H | []]]]; discriminate H.
  - split; [intros _; discriminate | intros _; auto].
Qed.

Lemma send_command_failure_witness :
  exists w', send_command 1 "bat" silent_world = Ok "Error" w' /\
    self w' = self silent_world /\
    (In (Kill 101 (Some SIGTERM)) (events_since silent_world w') <->
     upcoming silent_world <> Timeout).
Proof.
  exact (send_command_failure silent_world 1 "bat"
           {| pid := 101; position := (0, 0) |} eq_refl I).
Defined.

Section MoveRobot.

(** A reply without the treasure marker leaves the master object alone. *)
Lemma send_command_plain_reply (w w1 : World) (robot_id : Z)
    (command response : string) :
  send_command robot_id command w = Ok response w1 ->
  py_in "Treasure" response = false ->
  self w1 = self w.
Proof.
  unfold send_command, communication_error, robot_of. exec.
  destruct (dict_get (robots (self w)) robot_id) as [rec |] eqn:Hrec;
    exec; [| discriminate].
  destruct (inbox w) as [| [| e | | e | line] rest]; exec; rewrite ?Hrec; exec;
    try (intros [= <- <-]; reflexivity).
  destruct (py_in "Treasure" (strip line)) eqn:Hmark; exec.
  - rewrite Hrec. exec. destruct (position rec) as [row col].
    unfold room_info_set. exec.
    destruct (grid_set (room_info (self w)) row col "T"); exec; [| discriminate].
    case_decide; unfold exit_program; exec; [discriminate |].
    intros [= <- <-]. congruence.
  - intros [= <- <-]. reflexivity.
Qed.

(** [move_robot] when the reply lacks OK. *)
Lemma move_robot_refused (w w1 : World) (robot_id : Z) (direction response : string)
    (rec : AgentRecord) :
  dict_get (robots (self w)) robot_id = Some rec ->
  other_robot_at (robots (self w)) robot_id
                 (new_position (position rec) direction) = None ->
  send_command robot_id ("mv " +:+ direction) w = Ok response w1 ->
  py_in "OK" response = false ->
  exists w', move_robot robot_id direction w = Ok false w' /\ self w' = self w1.
Proof.
  intros Hrec Hfree Hsend Hko.
  unfold move_robot, robot_of. exec. rewrite Hrec. exec.
  destruct (position rec) as [old_row old_col].
  destruct (new_position (old_row, old_col) direction) as [new_row new_col].
  exec. rewrite Hfree. exec. rewrite Hsend. exec. rewrite Hko.
  eexists. split; reflexivity.
Qed.

End MoveRobot.

(** C7. For every call to moveRobot that gets a negative (KO) or Error
    reply from sendCommand, every cell of the room grid and the recorded
    position of every agent are the same after the call as before, and
    moveRobot reports failure. *)
Theorem move_robot_failure_frame (w w1 : World) (robot_id : Z)
    (direction response : string) (rec : AgentRecord) :
  dict_get (robots (self w)) robot_id = Some rec ->
  other_robot_at (robots (self w)) robot_id
                 (new_position (position rec) direction) = None ->
  send_command robot_id ("mv " +:+ direction) w = Ok response w1 ->
  response = "KO" \/ response = "Error" ->
  exists w', move_robot robot_id direction w = Ok false w' /\
             room_info (self w') = room_info (self w) /\
             robots (self w') = robots (self w).
Proof.
  intros Hrec Hfree Hsend Hreply.
  assert (Hko : py_in "OK" response = false)
    by (destruct Hreply as [-> | ->]; reflexivity).
  assert (Hplain : py_in "Treasure" response = false)
    by (destruct Hreply as [-> | ->]; reflexivity).
  destruct (move_robot_refused w w1 robot_id direction response rec
              Hrec Hfree Hsend Hko) as (w' & Hmove & Hself).
  exists w'. split; [exact Hmove |].
  rewrite Hself, (send_command_plain_reply w w1 _ _ _ Hsend Hplain).
  split; reflexivity.
Qed.


Lemma move_robot_failure_frame_witness :
  exists w', move_robot 1 "up" refusing_world = Ok false w' /\
             room_info (self w') = room_info (self refusing_world) /\
             robots (self w') = robots (self refusing_world).
Proof.
  refine (move_robot_failure_frame refusing_world _ 1 "up" "KO"
            {| pid := 101; position := (0, 0) |} eq_refl eq_refl _ (or_introl eq_refl)).
  vm_compute. reflexivity.
Defined.

Section UnknownRobot.

Variables (w : World) (rid : Z).
Hypothesis unknown : dict_get (robots (self w)) rid = None.






End UnknownRobot.





Section Spawn.

Variable s : Sensor.t.

Lemma py_index_in_range (len : nat) (i : Z) :
  0 <= i < Z.of_nat len -> py_index len i = Some (Z.to_nat i).
Proof.
  intros H. unfold py_index.
  destruct (Z.leb_spec 0 i), (Z.ltb_spec i (Z.of_nat len)); simpl; (reflexivity || lia).
Qed.

Lemma grid_set_shape (g g' : list (list string)) (row col : Z) (v : string) :
  grid_set g row col v = Some g' -> grid_shape s g -> grid_shape s g'.
Proof.
  unfold grid_set, grid_shape. intros Hset [Hrows Hcols].
  destruct (py_index (length g) row) as [i |]; simpl in Hset; [| discriminate].
  destruct (g !! i) as [line |] eqn:Hline; simpl in Hset; [| discriminate].
  destruct (py_index (length line) col) as [j |]; simpl in Hset; [| discriminate].
  injection Hset as <-. split.
  - rewrite length_insert. exact Hrows.
  - apply Forall_insert; [exact Hcols |].
    rewrite length_insert. apply (Forall_lookup_1 _ _ _ _ Hcols Hline).
Qed.

Lemma grid_set_in_room (g : list (list string)) (p : Z * Z) (v : string) :
  grid_shape s g -> in_room s p -> exists g', grid_set g p.1 p.2 v = Some g' /\ grid_shape s g'.
Proof.
  intros Hshape [Hrow Hcol]. pose proof Hshape as [Hrows Hcols].
  assert (Hi : (Z.to_nat p.1 < length g)%nat) by lia.
  destruct (lookup_lt_is_Some_2 g _ Hi) as [line Hline].
  pose proof (Forall_lookup_1 _ _ _ _ Hcols Hline) as Hlen. simpl in Hlen.
  assert (Hset : grid_set g p.1 p.2 v
                 = Some (<[Z.to_nat p.1 := <[Z.to_nat p.2 := v]> line]> g)).
  { unfold grid_set. rewrite py_index_in_range by lia. simpl. rewrite Hline. simpl.
    rewrite py_index_in_range by lia. reflexivity. }
  eexists. split; [exact Hset |]. exact (grid_set_shape _ _ _ _ _ Hset Hshape).
Qed.




Lemma new_fields : sensor (new s) = s /\ robots (new s) = [].
Proof. unfold new. destruct (initialize_room_info s). split; reflexivity. Qed.

(** The dictionary, when the key is new. *)
Lemma dict_get_set_ne (d : list (Z * AgentRecord)) (k k' : Z) (v : AgentRecord) :
  k <> k' -> dict_get (dict_set d k v) k' = dict_get d k'.
Proof.
  intros Hne. induction d as [| [k0 v0] d IH]; simpl.
  - case_decide; [contradiction | reflexivity].
  - destruct (decide (k0 = k)) as [-> |]; simpl.
    + case_decide; [contradiction | reflexivity].
    + rewrite IH. reflexivity.
Qed.

Lemma occupied_dict_set (d : list (Z * AgentRecord)) (k : Z) (v : AgentRecord) (p : Z * Z) :
  dict_get d k = None ->
  occupied (dict_set d k v) p = occupied d p || bool_decide (position v = p).
Proof.
  induction d as [| [k0 v0] d IH]; simpl.
  - intros _. rewrite orb_false_r. reflexivity.
  - destruct (decide (k0 = k)); [discriminate |]. intros Hd. simpl.
    rewrite IH by exact Hd. rewrite orb_assoc. reflexivity.
Qed.

Lemma spawned_app (w : World) (evs : list Event) :
  spawned {| self := self w; inbox := inbox w; fork_pid := fork_pid w;
             trace := trace w ++ evs |} = spawned w ++ List.filter is_fork evs.
Proof. unfold spawned. simpl. apply List.filter_app. Qed.



Lemma enumerate_from_cons {A} (i : Z) (x : A) (xs : list A) :
  zip (seqZ i (Z.of_nat (length (x :: xs)))) (x :: xs)
  = (i, x) :: zip (seqZ (i + 1) (Z.of_nat (length xs))) xs.
Proof.
  rewrite seqZ_cons by (simpl; lia). simpl.
  replace (Z.pred (Z.of_nat (S (length xs)))) with (Z.of_nat (length xs)) by lia.
  reflexivity.
Qed.


End Spawn.




(** C2, on the code: a robot whose start cell holds the last treasure
    brings the count of found treasures to the total while it is spawned, and
    the termination sequence is not entered; [send_command] and [move_robot]
    do compare the two counts after their own increment. *)
Theorem spawn_on_last_treasure_skips_termination
    (script : list Outcome) (pids : Z -> Z) :
  exists w',
    initialize_robots ["(0,2)"] (world (new one_treasure_room) script pids)
    = Ok tt w' /\
    treasures_found (self w') = 1 /\
    n_treasures (self w') = 1 /\
    terminations w' = 0%nat.
Proof.
  eexists. split; [vm_compute; reflexivity |].
  repeat split; reflexivity.
Qed.

(** The whole run on that input: the operator moves the robot off the
    treasure and back, input ends, and the termination sequence was never
    entered although every treasure was found from the start. *)
Lemma run_with_all_treasures_found_goes_on :
  let r := main one_treasure_room ["(0,2)"] ["mv 1 left"; "mv 1 right"]
                (world (new one_treasure_room) [Reply "OK"; Reply "OK"]
                       (fun i => 100 + i)) in
  (exists w', r = Ok tt w') /\
  treasures_found (self (world_of r)) = n_treasures (self (world_of r)) /\
  terminations (world_of r) = 0%nat.
Proof.
  split; [eexists; vm_compute; reflexivity |]. split; vm_compute; reflexivity.
Qed.


Section Ledger.

Lemma send_command_found_monotone (w : World) (robot_id : Z) (command : string) :
  treasures_found (self w)
  <= treasures_found (self (world_of (send_command robot_id command w))).
Proof.
  unfold send_command, communication_error, robot_of, room_info_set, exit_program. exec.
  destruct (dict_get (robots (self w)) robot_id) as [rec |] eqn:Hrec; exec; [| simpl; lia].
  destruct (inbox w) as [| [| e | | e | line] rest]; exec; rewrite ?Hrec; exec;
    try (simpl; lia).
  destruct (py_in "Treasure" (strip line)); exec; [| simpl; lia].
  rewrite Hrec. exec. destruct (position rec) as [row col]. exec.
  destruct (grid_set (room_info (self w)) row col "T"); exec; [| simpl; lia].
  case_decide; exec; simpl; lia.
Qed.

Lemma send_command_plain_exchange (w : World) (robot_id : Z) (command : string) :
  plain_exchange w ->
  self (world_of (send_command robot_id command w)) = self w.
Proof.
  unfold plain_exchange, send_command, communication_error, robot_of. exec.
  destruct (dict_get (robots (self w)) robot_id) as [rec |] eqn:Hrec; exec;
    [| reflexivity].
  destruct (inbox w) as [| [| e | | e | line] rest]; exec; rewrite ?Hrec; exec;
    try reflexivity.
  intros ->. reflexivity.
Qed.

Lemma size_add_new (X : gset (Z * Z)) (x : Z * Z) :
  x ∉ X -> Z.of_nat (size (X ∪ {[x]})) = Z.of_nat (size X) + 1.
Proof.
  intros Hx. rewrite size_union by set_solver. rewrite size_singleton. lia.
Qed.

(** What [move_robot] does to the two sides of the ledger, whatever was
    answered: [m1] is the master once the robot has been asked. *)
Lemma move_robot_after_reply (w : World) (robot_id : Z) (direction : string) :
  let m1 := self (world_of (send_command robot_id ("mv " +:+ direction) w)) in
  let m' := self (world_of (move_robot robot_id direction w)) in
  (treasures_found m' = treasures_found m1 /\
   discovered_treasures m' = discovered_treasures m1) \/
  (exists p, (p ∉ discovered_treasures m1) /\
             treasures_found m' = treasures_found m1 + 1 /\
             discovered_treasures m' = discovered_treasures m1 ∪ {[p]}) \/
  m' = self w.
Proof.
  intros m1 m'. subst m1 m'.
  unfold move_robot, robot_of. exec.
  destruct (dict_get (robots (self w)) robot_id) as [rec |] eqn:Hrec; exec;
    [| right; right; reflexivity].
  destruct (position rec) as [old_row old_col].
  destruct (new_position (old_row, old_col) direction) as [new_row new_col]. exec.
  destruct (other_robot_at _ _ _) as [[other_id ?] |]; exec;
    [right; right; reflexivity |].
  destruct (send_command robot_id ("mv " +:+ direction) w) as [response w1 | e w1];
    exec; [| left; split; reflexivity].
  destruct (py_in "OK" response); exec; [| left; split; reflexivity].
  unfold room_info_set, set_position, robot_of, exit_program.
  repeat (exec; branch); exec; simpl;
    try (left; split; reflexivity);
    right; left; eexists; (split; [eassumption |]); split; reflexivity.
Qed.

Lemma move_robot_found_monotone (w : World) (robot_id : Z) (direction : string) :
  treasures_found (self w)
  <= treasures_found (self (world_of (move_robot robot_id direction w))).
Proof.
  pose proof (send_command_found_monotone w robot_id ("mv " +:+ direction)) as Hsend.
  destruct (move_robot_after_reply w robot_id direction)
    as [[Hfound _] | [(p & _ & Hfound & _) | Hsame]];
    rewrite ?Hfound, ?Hsame; lia.
Qed.

(** [move_robot] keeps counter and set in step, as long as the robot's
    answer carries no treasure marker. *)
Lemma move_robot_keeps_ledger (w : World) (robot_id : Z) (direction : string) :
  plain_exchange w ->
  ledger_agrees (self w) ->
  ledger_agrees (self (world_of (move_robot robot_id direction w))).
Proof.
  intros Hplain Hledger.
  pose proof (send_command_plain_exchange w robot_id ("mv " +:+ direction) Hplain)
    as Hsend.
  unfold ledger_agrees in *.
  destruct (move_robot_after_reply w robot_id direction)
    as [[Hfound Hset] | [(p & Hnew & Hfound & Hset) | Hsame]].
  - rewrite Hfound, Hset, Hsend. exact Hledger.
  - rewrite Hfound, Hset, Hsend in *. rewrite size_add_new by exact Hnew. lia.
  - rewrite Hsame. exact Hledger.
Qed.

Lemma counting_next (w w' : World) (i : Z) :
  counting w i -> self w' = self w -> counting w' (i + 1).
Proof.
  intros [Hledger Hdisc Hfresh] Hself. split; rewrite Hself; auto.
  intros k Hk. apply Hfresh. lia.
Qed.

Lemma counting_spawned (w w' : World) (i : Z) (rec : AgentRecord) :
  counting w i ->
  robots (self w') = dict_set (robots (self w)) i rec ->
  (treasures_found (self w') = treasures_found (self w) /\
   discovered_treasures (self w') = discovered_treasures (self w)) \/
  (occupied (robots (self w)) (position rec) = false /\
   treasures_found (self w') = treasures_found (self w) + 1 /\
   discovered_treasures (self w')
   = discovered_treasures (self w) ∪ {[position rec]}) ->
  counting w' (i + 1).
Proof.
  intros [Hledger Hdisc Hfresh] Hrobots Hcases.
  assert (Hocc : forall p, occupied (robots (self w')) p
                           = occupied (robots (self w)) p
                             || bool_decide (position rec = p)).
  { intros p. rewrite Hrobots. apply occupied_dict_set, Hfresh. lia. }
  unfold ledger_agrees in *. split.
  - destruct Hcases as [[Hfound Hset] | (Hnew & Hfound & Hset)].
    + unfold ledger_agrees. rewrite Hfound, Hset. exact Hledger.
    + unfold ledger_agrees. rewrite Hfound, Hset, size_add_new; [lia |].
      intros Hin. apply Hdisc in Hin. congruence.
  - intros p Hp. rewrite Hocc. apply orb_true_iff.
    destruct Hcases as [[_ Hset] | (_ & _ & Hset)]; rewrite Hset in Hp.
    + left. apply Hdisc, Hp.
    + apply elem_of_union in Hp. destruct Hp as [Hp | Hp]; [left; apply Hdisc, Hp |].
      right. apply bool_decide_eq_true. apply elem_of_singleton in Hp. congruence.
  - intros k Hk. rewrite Hrobots, dict_get_set_ne by lia. apply Hfresh. lia.
Qed.

(** Spawning one robot keeps counter and set in step, and does not lower
    the counter. *)
Lemma initialize_robot_counting (w : World) (i : Z) (line : string) :
  counting w i ->
  counting (world_of (initialize_robot i line w)) (i + 1) /\
  treasures_found (self w)
  <= treasures_found (self (world_of (initialize_robot i line w))).
Proof.
  intros Hinv. unfold initialize_robot, fork, room_info_set.
  destruct (parse_position line) as [e | [row col]]; exec;
    [split; [apply (counting_next w); [exact Hinv | reflexivity] | simpl; lia] |].
  destruct (Sensor.with_obstacle (sensor (self w)) row col); exec;
    [split; [apply (counting_next w); [exact Hinv | reflexivity] | simpl; lia] |].
  destruct (occupied (robots (self w)) (row, col)) eqn:Hhere; exec;
    [split; [apply (counting_next w); [exact Hinv | reflexivity] | simpl; lia] |].
  repeat (exec; branch); exec; simpl;
    (split; [| lia]);
    eapply (counting_spawned w); try exact Hinv; try reflexivity; simpl;
    solve [left; split; reflexivity | right; repeat split; assumption].
Qed.

Lemma spawn_loop_counting (lines : list string) :
  forall (w : World) (i : Z),
    counting w i ->
    let w' := world_of (for_each (zip (seqZ i (Z.of_nat (length lines))) lines)
                                 (fun ip => initialize_robot ip.1 ip.2) w) in
    ledger_agrees (self w') /\ treasures_found (self w) <= treasures_found (self w').
Proof.
  induction lines as [| line lines IH]; intros w i Hinv; cbv zeta.
  - simpl. split; [apply Hinv | lia].
  - rewrite enumerate_from_cons. simpl for_each. unfold mbind, M_bind.
    destruct (initialize_robot_counting w i line Hinv) as [Hinv1 Hmono].
    destruct (initialize_robot i line w) as [[] w1 | e w1]; simpl in *.
    + destruct (IH w1 (i + 1) Hinv1) as [Hledger Hmono']. split; [exact Hledger | lia].
    + split; [apply Hinv1 | exact Hmono].
Qed.

(** Spawning the robots of a new master keeps counter and set in step. *)
Lemma initialize_robots_keeps_ledger (s : Sensor.t) (lines : list string)
    (script : list Outcome) (pids : Z -> Z) :
  ledger_agrees
    (self (world_of (initialize_robots lines (world (new s) script pids)))).
Proof.
  destruct (new_fields s) as [_ Hrobots].
  assert (Hfresh : discovered_treasures (new s) = ∅ /\ treasures_found (new s) = 0).
  { unfold new. destruct (initialize_room_info s). split; reflexivity. }
  destruct Hfresh as [Hdisc Hfound].
  apply (spawn_loop_counting lines (world (new s) script pids) 1).
  split; simpl.
  - unfold ledger_agrees. rewrite Hdisc, Hfound. reflexivity.
  - intros p. rewrite Hdisc. intros Hp. apply not_elem_of_empty in Hp. contradiction.
  - intros k _. rewrite Hrobots. reflexivity.
Qed.

End Ledger.

Section Termination.

(** Counts the [ExitProgram] events of a trace that was only appended to. *)
Ltac count_terminations :=
  unfold terminations in *; cbn [trace];
  rewrite ?List.filter_app, ?length_app; simpl; try lia.



Lemma parse_position_errors (line : string) (e : Exn) :
  parse_position line = inl e -> e = IndexError \/ e = ValueError.
Proof.
  unfold parse_position.
  repeat branch; intros [= <-]; auto.
Qed.

(** Spawning never enters the termination sequence, whatever it counts. *)
Lemma initialize_robot_never_terminates (w : World) (i : Z) (line : string) :
  terminations (world_of (initialize_robot i line w)) = terminations w /\
  forall code w', initialize_robot i line w = Raise (SystemExit code) w' -> code = 1.
Proof.
  unfold initialize_robot, fork, room_info_set.
  destruct (parse_position line) as [e | [row col]] eqn:Hparse; exec.
  - split; [reflexivity |]. intros code w' [= -> _].
    apply parse_position_errors in Hparse. destruct Hparse; discriminate.
  - repeat (exec; branch); exec; simpl;
      (split; [count_terminations; reflexivity | intros code w'; congruence]).
Qed.

Lemma initialize_robots_never_terminates (lines : list string) (w : World) :
  terminations (world_of (initialize_robots lines w)) = terminations w.
Proof.
  unfold initialize_robots, enumerate1. generalize 1.
  revert w. induction lines as [| line lines IH]; intros w i; [reflexivity |].
  rewrite enumerate_from_cons. simpl for_each. unfold mbind, M_bind.
  destruct (initialize_robot_never_terminates w i line) as [Hstep _].
  destruct (initialize_robot i line w) as [[] w1 | e w1]; simpl in *.
  - rewrite IH. exact Hstep.
  - exact Hstep.
Qed.

End Termination.

(** * Further properties of the robot *)

Section RobotFrame.

Lemma move_suspended (r : Robot.t) (direction : string) :
  Robot.suspended r = true -> Robot.move r direction = (r, "KO").
Proof. intros Hs. unfold Robot.move. rewrite Hs. reflexivity. Qed.

Lemma command_loop_body_suspended (r : Robot.t) (line : string) :
  Robot.suspended r = true -> (Robot.command_loop_body r line).1 = r.
Proof.
  intros Hs. unfold Robot.command_loop_body.
  destruct (decide (strip line = "")); [reflexivity |].
  destruct (split (strip line)) as [| verb [| arg [| ? ?]]];
    try (repeat case_decide; reflexivity).
  destruct (decide (verb = "mv")); [| repeat case_decide; reflexivity].
  rewrite move_suspended by exact Hs. reflexivity.
Qed.

(** [move] leaves everything but position and battery alone, and the
    position it leaves is the old one or a cell [valid_move] accepted. *)
Lemma move_frame (r : Robot.t) (direction : string) :
  let r' := (Robot.move r direction).1 in
  Robot.sensor r' = Robot.sensor r /\ Robot.id r' = Robot.id r /\
  Robot.suspended r' = Robot.suspended r /\
  (Robot.position r' = Robot.position r \/
   Robot.valid_move r (Robot.position r') = true).
Proof.
  unfold Robot.move.
  destruct (Robot.suspended r) eqn:Hs; [simpl; auto |].
  destruct (Robot.battery r <? 5); [simpl; auto |].
  destruct (Robot.valid_move r _) eqn:Hv; [| simpl; auto].
  unfold Robot.battery_decrease. simpl. rewrite Hs. simpl. auto.
Qed.

Lemma command_loop_body_frame (r : Robot.t) (line : string) :
  let r' := (Robot.command_loop_body r line).1 in
  Robot.sensor r' = Robot.sensor r /\ Robot.id r' = Robot.id r /\
  Robot.suspended r' = Robot.suspended r /\
  (Robot.position r' = Robot.position r \/
   Robot.valid_move r (Robot.position r') = true).
Proof.
  unfold Robot.command_loop_body.
  destruct (decide (strip line = "")); [simpl; auto |].
  destruct (split (strip line)) as [| verb [| arg [| ? ?]]];
    try (repeat case_decide; simpl; auto).
  pose proof (move_frame r arg) as Hm.
  destruct (Robot.move r arg) as [r' out]. exact Hm.
Qed.

Lemma step_frame (r : Robot.t) (e : Robot.Event) :
  let r' := (Robot.step r e).1 in
  Robot.sensor r' = Robot.sensor r /\ Robot.id r' = Robot.id r /\
  (Robot.position r' = Robot.position r \/
   Robot.valid_move r (Robot.position r') = true).
Proof.
  destruct e as [line | | []]; simpl; auto.
  - destruct (command_loop_body_frame r line) as (? & ? & ? & ?). auto.
  - unfold Robot.battery_decrease. destruct (Robot.suspended r); simpl; auto.
Qed.

End RobotFrame.

(** X1. A suspended robot is inert: it answers KO to every move, and no
    event other than the resume and refill signals changes its state; in
    particular the timer does not drain its battery. *)
Theorem suspended_robot_is_inert (r : Robot.t) :
  Robot.suspended r = true ->
  (forall direction, Robot.move r direction = (r, "KO")) /\
  (forall e, e <> Robot.Sig SIGQUIT -> e <> Robot.Sig SIGUSR1 ->
             (Robot.step r e).1 = r).
Proof.
  intros Hs. split; [intros d; apply move_suspended, Hs |].
  intros e Hresume Hrefill. destruct e as [line | | []]; simpl;
    try reflexivity; try contradiction.
  - apply command_loop_body_suspended, Hs.
  - destruct r; simpl in *; subst; reflexivity.
  - unfold Robot.battery_decrease. rewrite Hs. reflexivity.
Qed.

Lemma suspended_robot_is_inert_witness :
  Robot.move (Robot.set_suspended (Robot.init 1 (2, 2) 100 open_room) true) "up"
  = (Robot.set_suspended (Robot.init 1 (2, 2) 100 open_room) true, "KO").
Proof.
  exact (proj1 (suspended_robot_is_inert
                  (Robot.set_suspended (Robot.init 1 (2, 2) 100 open_room) true)
                  eq_refl) "up").
Defined.

(** X2. A robot that starts on a cell of the room that is not an obstacle
    never leaves the room and never stands on an obstacle, whatever commands
    and signals it receives; its id and its room description never change. *)
Theorem robot_stays_on_free_cells (r0 : Robot.t) (es : list Robot.Event) (r : Robot.t) :
  in_room (Robot.sensor r0) (Robot.position r0) ->
  Sensor.with_obstacle (Robot.sensor r0) (Robot.position r0).1 (Robot.position r0).2 = false ->
  Robot.run r0 es = Some r ->
  in_room (Robot.sensor r) (Robot.position r) /\
  Sensor.with_obstacle (Robot.sensor r) (Robot.position r).1 (Robot.position r).2 = false /\
  Robot.sensor r = Robot.sensor r0 /\ Robot.id r = Robot.id r0.
Proof.
  revert r0. induction es as [| e es IH]; intros r0 Hin Hfree Hrun; simpl in Hrun.
  - injection Hrun as <-. auto.
  - pose proof (step_frame r0 e) as Hstep.
    destruct (Robot.step r0 e) as [r1 out]. simpl in Hstep.
    destruct (Robot.exited out); [discriminate |].
    destruct Hstep as (Hsensor & Hid & Hpos).
    assert (Hvalid : in_room (Robot.sensor r1) (Robot.position r1) /\
                     Sensor.with_obstacle (Robot.sensor r1) (Robot.position r1).1
                                          (Robot.position r1).2 = false).
    { rewrite Hsensor. destruct Hpos as [-> | Hv]; [auto |].
      apply valid_move_spec in Hv. exact Hv. }
    destruct (IH r1 (proj1 Hvalid) (proj2 Hvalid) Hrun) as (Hin' & Hfree' & Hs & Hi).
    repeat split; try apply Hin'; try exact Hfree'; congruence.
Qed.

Lemma robot_stays_on_free_cells_witness :
  let r := Robot.set_battery
             (Robot.set_position (Robot.init 1 (0, 0) 100 open_room) (0, 1)) 94 in
  Robot.run (Robot.init 1 (0, 0) 100 open_room)
            [Robot.Line "mv up"; Robot.Sig SIGALRM; Robot.Line "mv right"] = Some r /\
  in_room (Robot.sensor r) (Robot.position r) /\
  Sensor.with_obstacle (Robot.sensor r) (Robot.position r).1 (Robot.position r).2 = false /\
  Robot.sensor r = open_room /\ Robot.id r = 1.
Proof.
  split; [reflexivity |].
  exact (robot_stays_on_free_cells (Robot.init 1 (0, 0) 100 open_room)
           [Robot.Line "mv up"; Robot.Sig SIGALRM; Robot.Line "mv right"]
           (Robot.set_battery (Robot.set_position (Robot.init 1 (0, 0) 100 open_room) (0, 1)) 94)
           ltac:(unfold in_room; cbn; lia) eq_refl eq_refl).
Defined.

(** X3. Without a refill the battery of a robot only goes down, by at most 5
    per event, provided it is not negative to begin with. *)
Theorem battery_only_drains (r0 : Robot.t) (es : list Robot.Event) (r : Robot.t) :
  0 <= Robot.battery r0 ->
  Forall (fun e => e <> Robot.Sig SIGUSR1) es ->
  Robot.run r0 es = Some r ->
  0 <= Robot.battery r <= Robot.battery r0 /\
  Robot.battery r0 - 5 * Z.of_nat (length es) <= Robot.battery r.
Proof.
  revert r0. induction es as [| e es IH]; intros r0 Hb Hes Hrun; simpl in Hrun.
  - injection Hrun as <-. simpl. lia.
  - apply Forall_cons in Hes. destruct Hes as [He Hes].
    pose proof (step_battery r0 e) as Hstep.
    destruct (Robot.step r0 e) as [r1 out]. simpl in Hstep.
    destruct (Robot.exited out); [discriminate |].
    destruct Hstep as [[-> _] | [_ Hcases]]; [contradiction |].
    destruct (IH r1 ltac:(lia) Hes Hrun) as [Hup Hdown].
    rewrite length_cons. lia.
Qed.

Lemma battery_only_drains_witness :
  let r0 := Robot.init 1 (0, 0) 100 open_room in
  let r := Robot.set_battery (Robot.set_position r0 (0, 1)) 94 in
  Robot.run r0 [Robot.Sig SIGALRM; Robot.Line "mv right"] = Some r /\
  0 <= Robot.battery r <= Robot.battery r0 /\
  Robot.battery r0 - 5 * 2 <= Robot.battery r.
Proof.
  split; [reflexivity |].
  exact (battery_only_drains (Robot.init 1 (0, 0) 100 open_room)
           [Robot.Sig SIGALRM; Robot.Line "mv right"]
           (Robot.set_battery (Robot.set_position (Robot.init 1 (0, 0) 100 open_room) (0, 1)) 94)
           ltac:(simpl; lia)
           ltac:(repeat constructor; discriminate) eq_refl).
Defined.

(** X4. A command changes the state of the robot only when it is answered
    OK: after any line, either the robot is as before or the one line it
    wrote on stdout is OK. Whatever it wrote, it wrote at most one line
    unless it exits. *)
Theorem robot_changes_only_on_ok (r : Robot.t) (line : string) :
  ((Robot.command_loop_body r line).1 = r \/
   Robot.stdout (Robot.command_loop_body r line).2 = ["OK"]) /\
  (Robot.exited (Robot.command_loop_body r line).2 = None ->
   (length (Robot.stdout (Robot.command_loop_body r line).2) <= 1)%nat).
Proof.
  unfold Robot.command_loop_body.
  destruct (decide (strip line = "")); [simpl; split; auto |].
  assert (Hmove : forall arg, (Robot.move r arg).1 = r \/ (Robot.move r arg).2 = "OK").
  { intros arg. unfold Robot.move.
    destruct (Robot.suspended r); [auto |].
    destruct (Robot.battery r <? 5); [auto |].
    destruct (Robot.valid_move r _); auto. }
  assert (Hother : forall parts : list string,
    let result :=
      if decide (strip line = "bat") then (r, Robot.reply [Robot.print_battery r])
      else if decide (strip line = "pos") then (r, Robot.reply [Robot.print_position r])
      else if decide (strip line = "tr") then (r, Robot.reply [(Robot.check_treasure r).1])
      else if decide (strip line = "exit")
      then (r, {| Robot.stdout := [Robot.print_position r; Robot.print_battery r];
                  Robot.stderr := []; Robot.exited := Some (Robot.ExitStatus 0) |})
      else (r, {| Robot.stdout := []; Robot.stderr := ["Invalid command"];
                  Robot.exited := None |}) in
    (result.1 = r \/ Robot.stdout result.2 = ["OK"]) /\
    (Robot.exited result.2 = None -> (length (Robot.stdout result.2) <= 1)%nat)).
  { intros _. repeat case_decide; simpl; (split; [auto | intros; (discriminate || lia)]). }
  destruct (split (strip line)) as [| verb [| arg [| ? ?]]]; try exact (Hother []).
  destruct (decide (verb = "mv")); [| exact (Hother [])].
  specialize (Hmove arg). destruct (Robot.move r arg) as [r' out]. simpl in *.
  split; [| auto]. destruct Hmove as [-> | ->]; auto.
Qed.

(** * The arguments of the two programs *)

Section Decimal.

Lemma rev_app_all_chars (P : ascii -> Prop) (s acc : string) :
  all_chars P s -> all_chars P acc -> all_chars P (String.rev_app s acc).
Proof.
  revert acc. induction s as [| c s IH]; intros acc Hs Hacc; simpl; [exact Hacc |].
  destruct Hs as [Hc Hs]. apply IH; [exact Hs | split; assumption].
Qed.

Lemma rev_app_rev_app (s a b : string) :
  String.rev_app (String.rev_app s a) b = String.rev_app a (s +:+ b).
Proof.
  revert a b. induction s as [| c s IH]; intros a b; simpl; [reflexivity |].
  rewrite IH. reflexivity.
Qed.

Lemma app_empty_r (s : string) : s +:+ "" = s.
Proof. induction s as [| c s IH]; simpl; [reflexivity |]. unfold String.app in *. simpl. rewrite IH. reflexivity. Qed.

Lemma lstrip_no_space (s : string) :
  all_chars (fun c => py_isspace c = false) s -> lstrip s = s.
Proof. destruct s as [| c s]; [reflexivity |]. intros [Hc _]. simpl. rewrite Hc. reflexivity. Qed.

(** [strip] leaves a string without blanks as it is. *)
Lemma strip_no_space (s : string) :
  all_chars (fun c => py_isspace c = false) s -> strip s = s.
Proof.
  intros Hs. unfold strip, String.rev.
  rewrite (lstrip_no_space s Hs).
  rewrite lstrip_no_space by (apply rev_app_all_chars; [exact Hs | exact I]).
  rewrite rev_app_rev_app. simpl. apply app_empty_r.
Qed.

Lemma pretty_N_char_digit (n : N) :
  (n < 10)%N -> Ascii.is_nat (pretty_N_char n) = Some (N.to_nat n).
Proof.
  destruct n as [| p]; intros Hsmall; [reflexivity |].
  do 4 (try (destruct p as [p | p |]; try reflexivity)); lia.
Qed.

Lemma digit_facts (c : ascii) :
  is_digit c -> py_isspace c = false /\ c <> "-"%char /\ c <> "+"%char.
Proof.
  unfold is_digit.
  destruct c as [[] [] [] [] [] [] [] []]; simpl; intros H;
    try (exfalso; apply H; reflexivity); repeat split; discriminate.
Qed.

(** The decimal writing of a positive number starts with a digit and holds
    digits only. *)
Lemma pretty_N_go_digits (x : N) :
  forall s, (0 < x)%N -> all_chars is_digit s ->
    all_chars is_digit (pretty_N_go x s) /\
    exists c t, pretty_N_go x s = String c t /\ is_digit c.
Proof.
  induction (N.lt_wf_0 x) as [x _ IH]. intros s Hx Hs.
  rewrite pretty_N_go_step by exact Hx.
  assert (Hd : is_digit (pretty_N_char (x `mod` 10))).
  { unfold is_digit. rewrite pretty_N_char_digit by (apply N.mod_lt; discriminate). discriminate. }
  destruct (N.eq_0_gt_0_cases (x `div` 10)) as [-> | Hpos].
  - rewrite pretty_N_go_0. split; [split; assumption |]. eauto.
  - apply IH; [apply N.div_lt; [exact Hx | reflexivity] | exact Hpos | split; assumption].
Qed.

(** Reading back the decimal writing of a positive number. *)
Lemma int_digits_pretty_N_go (x : N) :
  forall s, (0 < x)%N ->
    int_digits 0 false (pretty_N_go x s) = int_digits (Z.of_N x) true s.
Proof.
  induction (N.lt_wf_0 x) as [x _ IH]. intros s Hx.
  rewrite pretty_N_go_step by exact Hx.
  assert (Hstep : forall acc prev,
    int_digits acc prev (String (pretty_N_char (x `mod` 10)) s)
    = int_digits (10 * acc + Z.of_N (x `mod` 10)) true s).
  { intros acc prev. simpl.
    rewrite pretty_N_char_digit by (apply N.mod_lt; discriminate).
    rewrite N_nat_Z. reflexivity. }
  pose proof (N.div_mod x 10 ltac:(discriminate)) as Hdm.
  assert (Hlt : (x `div` 10 < x)%N) by (apply N.div_lt; [exact Hx | reflexivity]).
  revert Hdm Hlt Hstep. generalize (x `mod` 10)%N (x `div` 10)%N.
  intros m q Hdm Hlt Hstep.
  destruct (N.eq_0_gt_0_cases q) as [Hzero | Hpos].
  - rewrite Hzero, pretty_N_go_0, Hstep. f_equal. lia.
  - rewrite (IH q Hlt _ Hpos). rewrite Hstep. f_equal. lia.
Qed.

Lemma all_chars_impl (P Q : ascii -> Prop) (s : string) :
  (forall c, P c -> Q c) -> all_chars P s -> all_chars Q s.
Proof.
  intros HPQ. induction s as [| c s IH]; simpl; [auto |]. intros [? ?]. auto.
Qed.

Lemma py_int_pretty_pos (p : positive) :
  strip (pretty (N.pos p)) = pretty (N.pos p) /\
  py_int (pretty (N.pos p)) = Some (Z.pos p) /\
  py_int ("-" +:+ pretty (N.pos p)) = Some (Z.neg p).
Proof.
  unfold pretty, pretty_N. case_decide; [discriminate |].
  destruct (pretty_N_go_digits (N.pos p) "" ltac:(lia) I) as (Hall & c & t & Hshape & Hc).
  pose proof (int_digits_pretty_N_go (N.pos p) "" ltac:(lia)) as Hread. simpl in Hread.
  assert (Hplain : all_chars (fun c => py_isspace c = false) (pretty_N_go (N.pos p) "")).
  { eapply all_chars_impl; [| exact Hall]. intros a Ha. apply (digit_facts a Ha). }
  assert (Hstrip : strip (pretty_N_go (N.pos p) "") = pretty_N_go (N.pos p) "")
    by (apply strip_no_space, Hplain).
  split; [exact Hstrip |]. split.
  - unfold py_int. rewrite Hstrip. rewrite Hshape in *.
    destruct (digit_facts c Hc) as (_ & Hdash & Hplus).
    destruct c as [[] [] [] [] [] [] [] []]; try exact Hread; contradiction.
  - unfold py_int. rewrite strip_no_space.
    + change ("-" +:+ pretty_N_go (N.pos p) "") with (String "-" (pretty_N_go (N.pos p) "")).
      cbv beta iota. rewrite Hread. reflexivity.
    + split; [reflexivity | exact Hplain].
Qed.

(** [int(str(z)) == z] *)
Lemma py_int_pretty (z : Z) : py_int (pretty z) = Some z.
Proof.
  destruct z as [| p | p]; [reflexivity | |].
  - apply (py_int_pretty_pos p).
  - apply (py_int_pretty_pos p).
Qed.

End Decimal.

(** X5. The command line the master gives to the child it forks for robot
    [i] at [(row, col)] is read back by the main of robot.py as that same
    id and position, with the default battery 100 and the master's room
    file, provided the name of the room file is not empty. *)
Theorem spawn_arguments_read_back (load : string -> Sensor.t)
    (i row col : Z) (room_file : string) :
  room_file <> "" ->
  RobotMain.start load (MasterMain.robot_argv i row col room_file)
  = inr (Robot.init i (row, col) 100 (load room_file)).
Proof.
  intros Hfile. unfold RobotMain.start, MasterMain.robot_argv.
  rewrite py_int_pretty.
  cbn [RobotMain.process_options]. rewrite !py_int_pretty.
  repeat (case_decide; try done). cbn [RobotMain.process_options].
  repeat (case_decide; try done).
  cbn [RobotMain.room_file RobotMain.position RobotMain.battery].
  case_decide; [contradiction | reflexivity].
Qed.

Lemma spawn_arguments_read_back_witness :
  RobotMain.start (fun _ => open_room) (MasterMain.robot_argv 3 (-1) 20 "room.txt")
  = inr (Robot.init 3 (-1, 20) 100 open_room).
Proof.
  exact (spawn_arguments_read_back (fun _ => open_room) 3 (-1) 20 "room.txt"
           ltac:(discriminate)).
Defined.

Section Options.

Lemma process_options_without_file (n : nat) :
  forall (args : list string) (o o' : RobotMain.Options),
    (length args <= n)%nat ->
    "-f" ∉ args ->
    RobotMain.process_options args o = inr o' ->
    RobotMain.room_file o' = RobotMain.room_file o.
Proof.
  induction n as [| n IH]; intros args o o' Hlen Hno Hrun.
  - destruct args; [| simpl in Hlen; lia]. simpl in Hrun. congruence.
  - destruct args as [| a rest]; [simpl in Hrun; congruence |].
    simpl in Hlen. apply not_elem_of_cons in Hno. destruct Hno as [Ha Hrest].
    assert (Hskip : RobotMain.process_options rest o = inr o' ->
                    RobotMain.room_file o' = RobotMain.room_file o)
      by (apply IH; [lia | exact Hrest]).
    simpl in Hrun.
    destruct (decide (a = "-pos")).
    { destruct rest as [| p1 [| p2 rest']]; try (apply Hskip, Hrun).
      destruct (py_int p1), (py_int p2); try discriminate.
      apply IH in Hrun; [exact Hrun | simpl in Hlen; lia |].
      apply not_elem_of_cons in Hrest. destruct Hrest as [_ Hrest].
      apply not_elem_of_cons in Hrest. apply Hrest. }
    destruct (decide (a = "-b")).
    { destruct rest as [| b rest']; [apply Hskip, Hrun |].
      destruct (py_int b); try discriminate.
      apply IH in Hrun; [exact Hrun | simpl in Hlen; lia |].
      apply not_elem_of_cons in Hrest. apply Hrest. }
    destruct (decide (a = "-f")); [congruence |].
    apply Hskip, Hrun.
Qed.

End Options.

(** X6. Without the option [-f] on its command line, no robot is ever
    created: the main of robot.py ends before, with an exit status or an
    exception. *)
Theorem no_robot_without_room_file (load : string -> Sensor.t) (argv : list string)
    (r : Robot.t) :
  "-f" ∉ argv -> RobotMain.start load argv <> inr r.
Proof.
  intros Hno. unfold RobotMain.start.
  destruct argv as [| a0 rest]; [discriminate |].
  destruct (py_int a0); [| discriminate].
  apply not_elem_of_cons in Hno. destruct Hno as [_ Hrest].
  destruct (RobotMain.process_options rest _) as [e | o] eqn:Hrun; [discriminate |].
  apply (process_options_without_file (length rest)) in Hrun; [| lia | exact Hrest].
  simpl in Hrun. rewrite Hrun. discriminate.
Qed.

Lemma no_robot_without_room_file_witness :
  RobotMain.start (fun _ => open_room) ["1"; "-pos"; "2"; "2"; "-b"; "50"]
  <> inr (Robot.init 1 (2, 2) 50 open_room).
Proof.
  apply (no_robot_without_room_file (fun _ => open_room)
           ["1"; "-pos"; "2"; "2"; "-b"; "50"]).
  intros Hin. repeat (apply elem_of_cons in Hin; destruct Hin as [Hin | Hin];
                      [discriminate Hin |]).
  inversion Hin.
Defined.

Section MasterArguments.

Lemma has_option_later (a v : string) (args : list string) (flag w : string) :
  has_option args flag w -> has_option (a :: v :: args) flag w.
Proof. intros (pre & post & ->). exists (a :: v :: pre), post. reflexivity. Qed.

Lemma scan_arguments_sound (n : nat) :
  forall (args : list string) (r b r' b' : option string),
    (length args <= n)%nat ->
    MasterMain.scan_arguments args r b = Some (r', b') ->
    Nat.Even (length args) /\
    (r' = r \/ exists v, r' = Some v /\ has_option args "-room" v) /\
    (b' = b \/ exists v, b' = Some v /\ has_option args "-robots" v).
Proof.
  induction n as [| n IH]; intros args r b r' b' Hlen Hscan.
  - destruct args; [| simpl in Hlen; lia]. simpl in Hscan.
    injection Hscan as <- <-. split; [exists 0%nat; reflexivity | auto].
  - destruct args as [| a [| v rest]]; simpl in Hscan; try discriminate.
    + injection Hscan as <- <-. split; [exists 0%nat; reflexivity | auto].
    + simpl in Hlen.
      assert (Heven : Nat.Even (length rest) -> Nat.Even (length (a :: v :: rest))).
      { intros [k Hk]. exists (S k). simpl. lia. }
      destruct (decide (a = "-room")) as [-> |].
      { apply IH in Hscan; [| lia]. destruct Hscan as (He & Hr & Hb).
        split; [auto |]. split.
        - right. destruct Hr as [-> | (w & -> & Hw)].
          + exists v. split; [reflexivity |]. exists [], rest. reflexivity.
          + exists w. split; [reflexivity |]. apply has_option_later, Hw.
        - destruct Hb as [-> | (w & -> & Hw)]; [auto |].
          right. exists w. split; [reflexivity |]. apply has_option_later, Hw. }
      destruct (decide (a = "-robots")) as [-> |]; [| discriminate].
      apply IH in Hscan; [| lia]. destruct Hscan as (He & Hr & Hb).
      split; [auto |]. split.
      * destruct Hr as [-> | (w & -> & Hw)]; [auto |].
        right. exists w. split; [reflexivity |]. apply has_option_later, Hw.
      * right. destruct Hb as [-> | (w & -> & Hw)].
        -- exists v. split; [reflexivity |]. exists [], rest. reflexivity.
        -- exists w. split; [reflexivity |]. apply has_option_later, Hw.
Qed.

End MasterArguments.

(** X7. When [parse_arguments] of master.py accepts a command line, the
    line is made of pairs (it has even length), the two names it returns are
    not empty, and each was given on the line as the value of its own option,
    [-room] or [-robots]. *)
Theorem parse_arguments_sound (args : list string) (room_file robots_file : string) :
  MasterMain.parse_arguments args = inr (room_file, robots_file) ->
  Nat.Even (length args) /\
  room_file <> "" /\ robots_file <> "" /\
  has_option args "-room" room_file /\
  has_option args "-robots" robots_file.
Proof.
  unfold MasterMain.parse_arguments.
  destruct (MasterMain.scan_arguments args None None) as [[[r |] [b |]] |] eqn:Hscan;
    try discriminate.
  repeat case_decide; try discriminate. intros [= <- <-].
  destruct (scan_arguments_sound (length args) args None None _ _ ltac:(lia) Hscan)
    as (Heven & Hr & Hb).
  destruct Hr as [? | (v & [= <-] & Hv)]; [discriminate |].
  destruct Hb as [? | (w & [= <-] & Hw)]; [discriminate |].
  auto.
Qed.

Lemma parse_arguments_sound_witness :
  Nat.Even 4 /\ "room.txt" <> "" /\ "robots.txt" <> "" /\
  has_option ["-robots"; "robots.txt"; "-room"; "room.txt"] "-room" "room.txt" /\
  has_option ["-robots"; "robots.txt"; "-room"; "room.txt"] "-robots" "robots.txt".
Proof.
  exact (parse_arguments_sound ["-robots"; "robots.txt"; "-room"; "room.txt"]
           "room.txt" "robots.txt" eq_refl).
Defined.

(** * Further properties of the master *)

(** Follows the shape of the grid through the writes made to it. *)
Ltac shape_chain :=
  repeat match goal with
         | H : grid_set ?g _ _ _ = Some ?g', Hg : grid_shape ?s ?g |- _ =>
             pose proof (grid_set_shape s g g' _ _ _ H Hg); clear H
         end.

Section MasterFrame.

(** What [send_command] leaves alone, whatever the channel does. *)
Lemma send_command_frame (w : World) (robot_id : Z) (command : string) :
  let m' := self (world_of (send_command robot_id command w)) in
  robots m' = robots (self w) /\
  treasure_positions m' = treasure_positions (self w) /\
  discovered_treasures m' = discovered_treasures (self w) /\
  sensor m' = sensor (self w) /\
  n_treasures m' = n_treasures (self w) /\
  (room_info m' = room_info (self w) \/
   exists row col,
     grid_set (room_info (self w)) row col "T" = Some (room_info m')).
Proof.
  unfold send_command, communication_error, robot_of, room_info_set, exit_program.
  repeat (exec; branch); exec; simpl; repeat split; auto;
    right; do 2 eexists; eassumption.
Qed.

Lemma send_command_shape (s : Sensor.t) (w : World) (robot_id : Z) (command : string) :
  grid_shape s (room_info (self w)) ->
  grid_shape s (room_info (self (world_of (send_command robot_id command w)))).
Proof.
  intros Hshape.
  destruct (send_command_frame w robot_id command)
    as (_ & _ & _ & _ & _ & [-> | (row & col & Hset)]); [exact Hshape |].
  exact (grid_set_shape s _ _ _ _ _ Hset Hshape).
Qed.

(** What [move_robot] does to the dictionary of robots: nothing, or the
    position of the robot moved becomes the cell it was sent to, no other
    robot being recorded there. *)
Lemma move_robot_robots (w : World) (robot_id : Z) (direction : string) :
  let m' := self (world_of (move_robot robot_id direction w)) in
  robots m' = robots (self w) \/
  exists rec,
    dict_get (robots (self w)) robot_id = Some rec /\
    other_robot_at (robots (self w)) robot_id
                   (new_position (position rec) direction) = None /\
    robots m' = dict_set (robots (self w)) robot_id
                  {| pid := pid rec;
                     position := new_position (position rec) direction |}.
Proof.
  pose proof (send_command_frame w robot_id ("mv " +:+ direction)) as Hframe.
  unfold move_robot, robot_of. exec.
  destruct (dict_get (robots (self w)) robot_id) as [rec |] eqn:Hrec; exec;
    [| left; reflexivity].
  destruct (position rec) as [old_row old_col] eqn:Hpos.
  destruct (new_position (old_row, old_col) direction) as [new_row new_col] eqn:Hnew.
  exec.
  destruct (other_robot_at _ _ _) as [[other_id ?] |] eqn:Hfree; exec;
    [left; reflexivity |].
  destruct (send_command robot_id ("mv " +:+ direction) w) as [response w1 | e w1];
    simpl in Hframe; destruct Hframe as (Hrob & _); exec; [| left; exact Hrob].
  destruct (py_in "OK" response); exec; [| left; exact Hrob].
  unfold room_info_set, set_position, robot_of, exit_program.
  repeat (exec; rewrite ?Hrob, ?Hrec; branch);
    exec; rewrite ?Hrob, ?Hrec; exec; simpl; rewrite ?Hrob;
    try (left; reflexivity);
    right; exists rec; rewrite ?Hpos, ?Hnew; repeat split;
    reflexivity || assumption.
Qed.

Lemma move_robot_shape (s : Sensor.t) (w : World) (robot_id : Z) (direction : string) :
  grid_shape s (room_info (self w)) ->
  grid_shape s (room_info (self (world_of (move_robot robot_id direction w)))).
Proof.
  intros Hshape.
  pose proof (send_command_shape s w robot_id ("mv " +:+ direction) Hshape) as Hsend.
  unfold move_robot, robot_of. exec.
  destruct (dict_get (robots (self w)) robot_id) as [rec |] eqn:Hrec; exec;
    [| exact Hshape].
  destruct (position rec) as [old_row old_col].
  destruct (new_position (old_row, old_col) direction) as [new_row new_col].
  exec.
  destruct (other_robot_at _ _ _) as [[other_id ?] |]; exec; [exact Hshape |].
  destruct (send_command robot_id ("mv " +:+ direction) w) as [response w1 | e w1];
    simpl in Hsend; exec; [| exact Hsend].
  destruct (py_in "OK" response); exec; [| exact Hsend].
  unfold room_info_set, set_position, robot_of, exit_program.
  repeat (exec; branch); exec; simpl; shape_chain; assumption.
Qed.

Lemma other_robot_at_cons (kv : Z * AgentRecord) (d : list (Z * AgentRecord))
    (robot_id : Z) (p : Z * Z) :
  other_robot_at (kv :: d) robot_id p = None <->
  (kv.1 <> robot_id -> position kv.2 <> p) /\ other_robot_at d robot_id p = None.
Proof.
  unfold other_robot_at. simpl.
  destruct (decide (kv.1 = robot_id)) as [Heq | Hne].
  - rewrite (bool_decide_eq_false_2 (kv.1 <> robot_id)) by tauto. simpl. tauto.
  - rewrite (bool_decide_eq_true_2 (kv.1 <> robot_id)) by exact Hne. simpl.
    destruct (decide (position kv.2 = p)) as [Hp | Hp].
    + rewrite (bool_decide_eq_true_2 _ Hp). split; [discriminate | tauto].
    + rewrite (bool_decide_eq_false_2 _ Hp). tauto.
Qed.

Lemma other_robot_at_absent (d : list (Z * AgentRecord)) (robot_id : Z) (p : Z * Z) :
  other_robot_at d robot_id p = None -> robot_id ∉ keys d -> p ∉ cells d.
Proof.
  unfold keys, cells. induction d as [| kv d IH]; simpl; intros Hfree Hkey.
  - apply not_elem_of_nil.
  - apply other_robot_at_cons in Hfree. destruct Hfree as [Hhead Hfree].
    apply not_elem_of_cons in Hkey. destruct Hkey as [Hne Hkey].
    apply not_elem_of_cons. split; [| apply IH; assumption].
    intros ->. apply Hhead; [congruence | reflexivity].
Qed.

Lemma dict_set_keys (d : list (Z * AgentRecord)) (k : Z) (v rec : AgentRecord) :
  dict_get d k = Some rec -> keys (dict_set d k v) = keys d.
Proof.
  unfold keys. induction d as [| [k' v'] d IH]; cbn [dict_get dict_set];
    [discriminate |].
  destruct (decide (k' = k)) as [-> |]; [reflexivity |].
  intros Hget. rewrite !fmap_cons, IH by exact Hget. reflexivity.
Qed.

Lemma dict_set_cells_within (d : list (Z * AgentRecord)) (k : Z) (v : AgentRecord)
    (q : Z * Z) :
  q ∈ cells (dict_set d k v) -> q = position v \/ q ∈ cells d.
Proof.
  unfold cells. induction d as [| [k' v'] d IH]; simpl.
  - intros Hq. apply list_elem_of_singleton in Hq. auto.
  - destruct (decide (k' = k)); simpl; intros Hq; apply elem_of_cons in Hq.
    + destruct Hq as [-> | Hq]; [auto |]. right. apply elem_of_cons. auto.
    + destruct Hq as [-> | Hq]; [right; apply elem_of_cons; auto |].
      destruct (IH Hq) as [-> | Hd]; [auto |]. right. apply elem_of_cons. auto.
Qed.

(** Moving a robot to a cell where nobody else is recorded keeps the
    recorded cells distinct. *)
Lemma dict_set_cells_distinct (d : list (Z * AgentRecord)) (k : Z) (v rec : AgentRecord) :
  NoDup (keys d) -> NoDup (cells d) ->
  dict_get d k = Some rec ->
  other_robot_at d k (position v) = None ->
  NoDup (cells (dict_set d k v)).
Proof.
  induction d as [| [k' v'] d IH]; intros Hkeys Hcells Hget Hfree;
    [discriminate Hget |].
  unfold keys, cells in Hkeys, Hcells. simpl in Hkeys, Hcells.
  apply NoDup_cons in Hkeys. destruct Hkeys as [Hk' Hkeys].
  apply NoDup_cons in Hcells. destruct Hcells as [Hv' Hcells].
  apply other_robot_at_cons in Hfree. destruct Hfree as [Hhead Hfree].
  cbn [fst snd] in *. cbn [dict_get dict_set] in *.
  destruct (decide (k' = k)) as [-> | Hne].
  - unfold cells. simpl. apply NoDup_cons. split; [| exact Hcells].
    apply (other_robot_at_absent d k); assumption.
  - unfold cells. simpl. apply NoDup_cons.
    split; [| apply IH; assumption].
    intros Hin. apply dict_set_cells_within in Hin.
    destruct Hin as [Heq | Hin]; [apply (Hhead Hne Heq) | apply (Hv' Hin)].
Qed.

Section Preserved.

(** A property of the world that does not depend on the events so far. *)
Context {Q : World -> Prop}.
Hypothesis Q_trace : forall w t,
  Q w -> Q {| self := self w; inbox := inbox w; fork_pid := fork_pid w; trace := t |}.

Lemma keeps_bind {A B} (c : M A) (f : A -> M B) :
  preserved_world Q c -> (forall a, preserved_world Q (f a)) ->
  preserved_world Q (c ≫= f).
Proof.
  intros Hc Hf w Hw. unfold mbind, M_bind.
  specialize (Hc w Hw). destruct (c w) as [a w1 | e w1]; simpl in *.
  - apply Hf, Hc.
  - exact Hc.
Qed.

Lemma keeps_ret {A} (a : A) : preserved_world Q (mret a).
Proof. intros w Hw. exact Hw. Qed.

Lemma keeps_raise {A} (e : Exn) : preserved_world Q (@raise A e).
Proof. intros w Hw. exact Hw. Qed.

Lemma keeps_get : preserved_world Q get.
Proof. intros w Hw. exact Hw. Qed.

Lemma keeps_emit (e : Event) : preserved_world Q (emit e).
Proof. intros w Hw. apply Q_trace, Hw. Qed.

Lemma keeps_for_each {A} (xs : list A) (body : A -> M unit) :
  (forall x, preserved_world Q (body x)) -> preserved_world Q (for_each xs body).
Proof.
  intros Hbody. induction xs as [| x xs IH]; simpl.
  - apply keeps_ret.
  - apply keeps_bind; [apply Hbody | intros _; exact IH].
Qed.

Lemma keeps_robot_of (rid : Z) : preserved_world Q (robot_of rid).
Proof.
  unfold robot_of. apply keeps_bind; [apply keeps_get |].
  intros m. destruct (dict_get (robots m) rid);
    [apply keeps_ret | apply keeps_raise].
Qed.

Lemma keeps_print_room : preserved_world Q print_room.
Proof.
  unfold print_room, print.
  apply keeps_bind; [apply keeps_emit | intros _].
  apply keeps_bind; [apply keeps_get | intros m].
  apply keeps_for_each. intros row. apply keeps_emit.
Qed.

Lemma keeps_exit_program : preserved_world Q exit_program.
Proof.
  unfold exit_program.
  apply keeps_bind; [apply keeps_emit | intros _; apply keeps_raise].
Qed.

Lemma keeps_kill_robot (rid : Z) (signum : Signal) :
  preserved_world Q (kill_robot rid signum).
Proof.
  unfold kill_robot.
  apply keeps_bind; [apply keeps_robot_of | intros rec; apply keeps_emit].
Qed.

Hypothesis keeps_send :
  forall rid command, preserved_world Q (send_command rid command).
Hypothesis keeps_move :
  forall rid direction, preserved_world Q (move_robot rid direction).

Lemma keeps_query_robot (rid : Z) (command : string) :
  preserved_world Q (query_robot rid command).
Proof.
  unfold query_robot, print.
  apply keeps_bind; [apply keeps_send | intros response].
  apply keeps_bind; [apply keeps_robot_of | intros rec; apply keeps_emit].
Qed.

Lemma keeps_one_or_all (parts : list string) (usage : string)
    (action : Z -> M unit) :
  (forall rid, preserved_world Q (action rid)) ->
  preserved_world Q (one_or_all parts usage action).
Proof.
  intros Haction. unfold one_or_all, print_err.
  destruct parts as [| ? [| robot_id [| ? ?]]]; try apply keeps_emit.
  case_decide.
  - apply keeps_bind; [apply keeps_get | intros m].
    apply keeps_for_each, Haction.
  - destruct (py_int robot_id); [apply Haction | apply keeps_emit].
Qed.

(** Whatever [send_command] and [move_robot] keep, every operator command
    keeps, and so does the whole command loop. *)
Lemma keeps_handle_command (command : string) :
  preserved_world Q (handle_command command).
Proof.
  unfold handle_command. cbv zeta.
  destruct (split (strip command)) as [| verb rest]; [apply keeps_ret |].
  case_decide.
  { destruct rest as [| robot_id [| direction [| ? ?]]];
      try apply keeps_emit.
    assert (Hafter : preserved_world Q room_after_movement).
    { unfold room_after_movement, print.
      apply keeps_bind; [apply keeps_emit | intros _; apply keeps_print_room]. }
    case_decide.
    - apply keeps_bind; [apply keeps_get | intros m].
      apply keeps_bind; [| intros _; exact Hafter].
      apply keeps_for_each. intros rid.
      apply keeps_bind; [apply keeps_move | intros _; apply keeps_ret].
    - destruct (py_int robot_id); [| apply keeps_emit].
      apply keeps_bind; [apply keeps_move | intros _; exact Hafter]. }
  repeat case_decide;
    first [ apply keeps_print_room
          | apply keeps_exit_program
          | apply keeps_ret
          | apply keeps_one_or_all; intros rid;
            first [apply keeps_query_robot | apply keeps_kill_robot] ].
Qed.

Lemma keeps_command_loop (lines : list string) :
  preserved_world Q (command_loop lines).
Proof.
  induction lines as [| command lines IH]; simpl.
  - apply keeps_ret.
  - apply keeps_bind; [apply keeps_handle_command | intros _; exact IH].
Qed.

End Preserved.

(** The same for a property of the master object alone. *)
Lemma preserved_print_room {P : Master.t -> Prop} : preserved P print_room.
Proof.
  apply (keeps_print_room (Q := fun w => P (self w))). intros w t Hw. exact Hw.
Qed.

Lemma preserved_command_loop {P : Master.t -> Prop} (lines : list string) :
  (forall rid command, preserved P (send_command rid command)) ->
  (forall rid direction, preserved P (move_robot rid direction)) ->
  preserved P (command_loop lines).
Proof.
  intros Hsend Hmove.
  apply (keeps_command_loop (Q := fun w => P (self w))).
  - intros w t Hw. exact Hw.
  - exact Hsend.
  - exact Hmove.
Qed.

End MasterFrame.

(** X8. Whatever the operator types and whatever the robots answer, the
    room grid of the master keeps the dimensions of the room: no command
    adds or removes a row or a cell, however the command loop ends. *)
Theorem command_loop_keeps_grid_shape (s : Sensor.t) (lines : list string) (w : World) :
  grid_shape s (room_info (self w)) ->
  grid_shape s (room_info (self (world_of (command_loop lines w)))).
Proof.
  apply (preserved_command_loop (P := fun m => grid_shape s (room_info m))).
  - intros rid command w0. apply send_command_shape.
  - intros rid direction w0. apply move_robot_shape.
Qed.

Lemma command_loop_keeps_grid_shape_witness :
  grid_shape open_room
    (room_info (self (world_of (command_loop ["mv 1 down"; "print"] refusing_world)))).
Proof.
  apply (command_loop_keeps_grid_shape open_room ["mv 1 down"; "print"] refusing_world).
  split; [reflexivity | repeat constructor].
Defined.

(** X9. No operator command ever lowers the counter of found treasures:
    after any sequence of commands, with any behaviour of the robots, the
    counter is at least what it was. *)
Theorem command_loop_never_lowers_counter (lines : list string) (w : World) :
  treasures_found (self w)
  <= treasures_found (self (world_of (command_loop lines w))).
Proof.
  apply (preserved_command_loop
           (P := fun m => treasures_found (self w) <= treasures_found m)).
  - intros rid command w0 Hw0.
    pose proof (send_command_found_monotone w0 rid command). lia.
  - intros rid direction w0 Hw0.
    pose proof (move_robot_found_monotone w0 rid direction). lia.
  - lia.
Qed.

(** The recorded cells stay distinct, and the ids the same, through the
    command loop. *)
Lemma command_loop_apart (K : list Z) (lines : list string) :
  NoDup K ->
  preserved (fun m => NoDup (cells (robots m)) /\ keys (robots m) = K)
            (command_loop lines).
Proof.
  intros HK. apply preserved_command_loop.
  - intros rid command w0 Hw0.
    destruct (send_command_frame w0 rid command) as (-> & _). exact Hw0.
  - intros rid direction w0 [Hcells0 Hkeys0].
    destruct (move_robot_robots w0 rid direction) as [-> | (rec & Hrec & Hfree & ->)];
      [split; assumption |].
    split.
    + apply (dict_set_cells_distinct _ _ _ rec); try assumption.
      rewrite Hkeys0. exact HK.
    + rewrite (dict_set_keys _ _ _ rec) by exact Hrec. exact Hkeys0.
Qed.

(** X10. The master never records two robots on the same cell: if the
    recorded cells are distinct before a sequence of operator commands, they
    are distinct after it, whatever the robots answer; and the set of
    registered robot ids does not change. *)
Theorem command_loop_keeps_robots_apart (lines : list string) (w : World) :
  NoDup (keys (robots (self w))) ->
  NoDup (cells (robots (self w))) ->
  NoDup (cells (robots (self (world_of (command_loop lines w))))) /\
  keys (robots (self (world_of (command_loop lines w)))) = keys (robots (self w)).
Proof.
  intros Hkeys Hcells.
  apply (command_loop_apart (keys (robots (self w))) lines Hkeys w).
  split; [exact Hcells | reflexivity].
Qed.

Lemma command_loop_keeps_robots_apart_witness :
  NoDup (cells (robots (self (world_of (command_loop ["mv 1 down"] refusing_world))))) /\
  keys (robots (self (world_of (command_loop ["mv 1 down"] refusing_world))))
  = keys (robots (self refusing_world)).
Proof.
  apply (command_loop_keeps_robots_apart ["mv 1 down"] refusing_world).
  - repeat constructor. intros Hin. inversion Hin.
  - repeat constructor. intros Hin. inversion Hin.
Defined.

Section RoomScan.

Variable s : Sensor.t.

(** Writing a cell of the room changes that cell and no other. *)
Lemma cell_at_grid_set (g : list (list string)) (p q : Z * Z) (v : string) :
  grid_shape s g -> in_room s p -> in_room s q ->
  exists g', grid_set g p.1 p.2 v = Some g' /\ grid_shape s g' /\
             cell_at g' q = if decide (p = q) then Some v else cell_at g q.
Proof.
  intros Hshape [Hrow Hcol] [Hqrow Hqcol]. pose proof Hshape as [Hrows Hcols].
  assert (Hi : (Z.to_nat p.1 < length g)%nat) by lia.
  destruct (lookup_lt_is_Some_2 g _ Hi) as [line Hline].
  pose proof (Forall_lookup_1 _ _ _ _ Hcols Hline) as Hlen. simpl in Hlen.
  assert (Hset : grid_set g p.1 p.2 v
                 = Some (<[Z.to_nat p.1 := <[Z.to_nat p.2 := v]> line]> g)).
  { unfold grid_set. rewrite py_index_in_range by lia. simpl. rewrite Hline. simpl.
    rewrite py_index_in_range by lia. reflexivity. }
  eexists. split; [exact Hset |]. split; [exact (grid_set_shape s _ _ _ _ _ Hset Hshape) |].
  unfold cell_at. destruct (decide (Z.to_nat p.1 = Z.to_nat q.1)) as [Hsame | Hother].
  - rewrite <- Hsame. rewrite list_lookup_insert_eq by exact Hi. simpl. rewrite Hline. simpl.
    destruct (decide (Z.to_nat p.2 = Z.to_nat q.2)) as [Hsame2 | Hother2].
    + rewrite <- Hsame2. rewrite list_lookup_insert_eq by lia.
      rewrite decide_True; [reflexivity |].
      destruct p, q; simpl in *. f_equal; lia.
    + rewrite list_lookup_insert_ne by exact Hother2.
      rewrite decide_False; [reflexivity |]. intros <-. apply Hother2. reflexivity.
  - rewrite list_lookup_insert_ne by exact Hother.
    rewrite decide_False; [reflexivity |]. intros <-. apply Hother. reflexivity.
Qed.

Lemma scanned_cells_in_room (p : Z * Z) :
  p ∈ (i ← range (Sensor.dimensions s).1; j ← range (Sensor.dimensions s).2; [(i, j)])
  <-> in_room s p.
Proof.
  unfold range, in_room. rewrite list_elem_of_bind. split.
  - intros (i & Hp & Hi). apply list_elem_of_bind in Hp. destruct Hp as (j & Hp & Hj).
    apply list_elem_of_singleton in Hp. subst p. simpl.
    apply elem_of_seqZ in Hi. apply elem_of_seqZ in Hj. lia.
  - intros [Hi Hj]. exists p.1. split; [| apply elem_of_seqZ; lia].
    apply list_elem_of_bind. exists p.2. split; [| apply elem_of_seqZ; lia].
    apply list_elem_of_singleton. destruct p; reflexivity.
Qed.

(** The treasures gathered by the scan of a list of cells. *)
Lemma scan_treasures (cs : list (Z * Z)) :
  forall (acc : list (list string) * gset (Z * Z)) (p : Z * Z),
    p ∈ (foldl (scan_cell s) acc cs).2 <->
    p ∈ acc.2 \/
    (p ∈ cs /\ Sensor.with_obstacle s p.1 p.2 = false /\
     Sensor.with_treasure s p.1 p.2 = true).
Proof.
  induction cs as [| c cs IH]; intros acc p; simpl.
  - split; [auto |]. intros [H | (H & _)]; [exact H | inversion H].
  - rewrite IH. rewrite elem_of_cons. unfold scan_cell. destruct c as [i j].
    destruct (Sensor.with_obstacle s i j) eqn:Hobs;
      [| destruct (Sensor.with_treasure s i j) eqn:Htr]; simpl.
    + split; [tauto |]. intros [H | ([-> | H] & Ho & Ht)]; [tauto | | tauto].
      simpl in Ho. congruence.
    + rewrite elem_of_union, elem_of_singleton. split.
      * intros [[H | ->] | H]; [tauto | | tauto]. right. simpl. auto.
      * intros [H | ([-> | H] & Ho & Ht)]; tauto.
    + split; [tauto |]. intros [H | ([-> | H] & Ho & Ht)]; [tauto | | tauto].
      simpl in Ht. congruence.
Qed.

(** The grid after the scan of a list of cells of the room. *)
Lemma scan_grid (cs : list (Z * Z)) :
  forall (acc : list (list string) * gset (Z * Z)) (q : Z * Z),
    Forall (in_room s) cs -> grid_shape s acc.1 -> in_room s q ->
    cell_at (foldl (scan_cell s) acc cs).1 q =
      if decide (q ∈ cs /\ Sensor.with_obstacle s q.1 q.2 = true)
      then Some "X" else cell_at acc.1 q.
Proof.
  induction cs as [| c cs IH]; intros acc q Hcs Hshape Hq; cbn [foldl].
  - rewrite decide_False; [reflexivity |]. intros [H _]. inversion H.
  - apply Forall_cons in Hcs. destruct Hcs as [Hc Hcs].
    assert (Hstep : grid_shape s (scan_cell s acc c).1 /\
                    cell_at (scan_cell s acc c).1 q =
                      if decide (c = q /\ Sensor.with_obstacle s q.1 q.2 = true)
                      then Some "X" else cell_at acc.1 q).
    { unfold scan_cell. destruct c as [i j].
      destruct (Sensor.with_obstacle s i j) eqn:Hobs.
      - destruct (cell_at_grid_set acc.1 (i, j) q "X" Hshape Hc Hq)
          as (g' & Hset & Hshape' & Hcell).
        simpl in Hset. rewrite Hset. simpl. split; [exact Hshape' |].
        rewrite Hcell. destruct (decide ((i, j) = q)) as [<- |].
        + rewrite decide_True; [reflexivity | auto].
        + rewrite decide_False; [reflexivity | tauto].
      - assert (Hno : ~ ((i, j) = q /\ Sensor.with_obstacle s q.1 q.2 = true))
          by (intros [<- H]; simpl in H; congruence).
        rewrite (decide_False _ _ Hno).
        destruct (Sensor.with_treasure s i j); split; (exact Hshape || reflexivity). }
    destruct Hstep as [Hshape' Hcell].
    rewrite (IH _ q Hcs Hshape' Hq), Hcell.
    destruct (decide (q ∈ cs /\ Sensor.with_obstacle s q.1 q.2 = true))
      as [[Hin Ho] | Hn1].
    { rewrite decide_True; [reflexivity |]. split; [| exact Ho].
      apply elem_of_cons. auto. }
    destruct (decide (c = q /\ Sensor.with_obstacle s q.1 q.2 = true))
      as [[-> Ho] | Hn2].
    { rewrite decide_True; [reflexivity |]. split; [| exact Ho].
      apply elem_of_cons. auto. }
    rewrite decide_False; [reflexivity |]. intros [Hin Ho].
    apply elem_of_cons in Hin. destruct Hin as [-> | Hin]; [apply Hn2 | apply Hn1]; auto.
Qed.

End RoomScan.

(** X11. The treasure positions the master computes at start are exactly
    the cells of the room that hold a treasure and are not an obstacle. *)
Theorem treasure_positions_of_new_master (s : Sensor.t) (p : Z * Z) :
  p ∈ treasure_positions (new s) <->
  in_room s p /\ Sensor.with_obstacle s p.1 p.2 = false /\
  Sensor.with_treasure s p.1 p.2 = true.
Proof.
  unfold new, initialize_room_info.
  destruct (Sensor.dimensions s) as [rows cols] eqn:Hdim.
  pose proof (scan_treasures s
    (i ← range rows; j ← range cols; [(i, j)])
    (replicate (Z.to_nat rows) (replicate (Z.to_nat cols) "?"), ∅) p) as Hscan.
  pose proof (scanned_cells_in_room s p) as Hcells. rewrite Hdim in Hcells. simpl in Hcells.
  destruct (foldl _ _ _) as [g t]. simpl in *.
  rewrite Hscan, Hcells. split; [| tauto].
  intros [H | H]; [| exact H]. apply not_elem_of_empty in H. contradiction.
Qed.

(** X12. In the grid of a new master, every cell of the room shows X when
    it is an obstacle and ? otherwise. *)
Theorem room_info_of_new_master (s : Sensor.t) (p : Z * Z) :
  in_room s p ->
  cell_at (room_info (new s)) p
  = Some (if Sensor.with_obstacle s p.1 p.2 then "X" else "?").
Proof.
  intros Hp. pose proof Hp as [Hrow Hcol].
  unfold new, initialize_room_info.
  destruct (Sensor.dimensions s) as [rows cols] eqn:Hdim. simpl in Hrow, Hcol.
  assert (Hblank : grid_shape s
            (replicate (Z.to_nat rows) (replicate (Z.to_nat cols) "?"), (∅ : gset (Z * Z))).1).
  { unfold grid_shape. rewrite Hdim. simpl. split; [apply length_replicate |].
    apply Forall_replicate, length_replicate. }
  assert (Hcs : Forall (in_room s) (i ← range rows; j ← range cols; [(i, j)])).
  { apply Forall_forall. intros q Hq.
    pose proof (scanned_cells_in_room s q) as Hcells. rewrite Hdim in Hcells.
    apply Hcells, Hq. }
  pose proof (scan_grid s _ _ p Hcs Hblank Hp) as Hscan.
  pose proof (scanned_cells_in_room s p) as Hcells. rewrite Hdim in Hcells. simpl in Hcells.
  destruct (foldl _ _ _) as [g t]. simpl in *. rewrite Hscan.
  assert (Hstart : cell_at (replicate (Z.to_nat rows) (replicate (Z.to_nat cols) "?")) p
                   = Some "?").
  { unfold cell_at. rewrite lookup_replicate_2 by lia. simpl.
    rewrite lookup_replicate_2 by lia. reflexivity. }
  rewrite Hstart.
  destruct (Sensor.with_obstacle s p.1 p.2).
  - rewrite decide_True; [reflexivity |]. split; [apply Hcells, Hp | reflexivity].
  - rewrite decide_False; [reflexivity |]. intros [_ H]. discriminate H.
Qed.

Lemma room_info_of_new_master_witness :
  cell_at (room_info (new one_treasure_room)) (1, 1) = Some "X".
Proof.
  exact (room_info_of_new_master one_treasure_room (1, 1)
           ltac:(unfold in_room; cbn; lia)).
Defined.

Section SpawnPlacement.

Lemma dict_get_None (d : list (Z * AgentRecord)) (k : Z) :
  dict_get d k = None <-> k ∉ keys d.
Proof.
  unfold keys. induction d as [| [k' v] d IH]; simpl.
  - split; [intros _; apply not_elem_of_nil | reflexivity].
  - rewrite not_elem_of_cons. destruct (decide (k' = k)) as [-> | Hne].
    + split; [discriminate | intros [H _]; contradiction].
    + rewrite IH. split; [intros H; split; [congruence | exact H] | tauto].
Qed.

Lemma dict_set_fresh (d : list (Z * AgentRecord)) (k : Z) (v : AgentRecord) :
  dict_get d k = None -> dict_set d k v = d ++ [(k, v)].
Proof.
  induction d as [| [k' v'] d IH]; simpl; [reflexivity |].
  destruct (decide (k' = k)); [discriminate |].
  intros H. rewrite IH by exact H. reflexivity.
Qed.

Lemma occupied_false (d : list (Z * AgentRecord)) (p : Z * Z) :
  occupied d p = false <-> p ∉ cells d.
Proof.
  unfold occupied, cells. induction d as [| [k v] d IH]; simpl.
  - split; [intros _; apply not_elem_of_nil | reflexivity].
  - rewrite orb_false_iff, IH, not_elem_of_cons, bool_decide_eq_false.
    split; intros [H1 H2]; (split; [congruence | exact H2]).
Qed.

(** What spawning one robot does to the dictionary: nothing, the program
    ending there, or a new entry for a free cell that is not an obstacle. *)
Lemma initialize_robot_robots (w : World) (i : Z) (line : string) :
  let r := initialize_robot i line w in
  sensor (self (world_of r)) = sensor (self w) /\
  ((robots (self (world_of r)) = robots (self w) /\ forall w', r <> Ok tt w') \/
   exists row col,
     Sensor.with_obstacle (sensor (self w)) row col = false /\
     occupied (robots (self w)) (row, col) = false /\
     robots (self (world_of r))
     = dict_set (robots (self w)) i
         {| pid := fork_pid w i; position := (row, col) |}).
Proof.
  unfold initialize_robot, fork, room_info_set.
  destruct (parse_position line) as [e | [row col]]; exec;
    [split; [reflexivity | left; split; [reflexivity | discriminate]] |].
  destruct (Sensor.with_obstacle (sensor (self w)) row col) eqn:Hobs; exec;
    [split; [reflexivity | left; split; [reflexivity | discriminate]] |].
  destruct (occupied (robots (self w)) (row, col)) eqn:Hocc; exec;
    [split; [reflexivity | left; split; [reflexivity | discriminate]] |].
  repeat (exec; branch); exec; simpl; (split; [reflexivity |]);
    right; exists row, col; auto.
Qed.

Lemma well_placed_spawn (s : Sensor.t) (w : World) (i : Z) (line : string) :
  well_placed s (self w) ->
  i = 1 + Z.of_nat (length (robots (self w))) ->
  well_placed s (self (world_of (initialize_robot i line w))) /\
  (forall w', initialize_robot i line w = Ok tt w' ->
              i + 1 = 1 + Z.of_nat (length (robots (self w')))).
Proof.
  intros (Hsensor & Hkeys & Hcells & Hfree) Hi.
  destruct (initialize_robot_robots w i line)
    as (Hs & [[Hsame Hraise] | (row & col & Hobs & Hocc & Hnew)]).
  - split; [| intros w' Hrun; destruct (Hraise w' Hrun)].
    unfold well_placed. rewrite Hs, Hsame. auto.
  - assert (Hfresh : dict_get (robots (self w)) i = None).
    { apply dict_get_None. rewrite Hkeys. rewrite elem_of_seqZ. lia. }
    rewrite dict_set_fresh in Hnew by exact Hfresh.
    assert (Hplaced : well_placed s (self (world_of (initialize_robot i line w)))).
    { unfold well_placed, keys, cells in *. rewrite Hs, Hnew.
      rewrite !fmap_app, length_app. simpl.
      split; [exact Hsensor |]. split; [| split].
      - rewrite Hkeys. replace (Z.of_nat (length (robots (self w)) + 1))
          with (Z.of_nat (S (length (robots (self w))))) by lia.
        rewrite seqZ_S. rewrite Hi. reflexivity.
      - apply NoDup_app. split; [exact Hcells |]. split; [| apply NoDup_singleton].
        intros p Hp Hp'. apply list_elem_of_singleton in Hp'. subst p.
        apply occupied_false in Hocc. apply Hocc, Hp.
      - apply Forall_app. split; [exact Hfree |].
        apply Forall_singleton. simpl. rewrite <- Hsensor. exact Hobs. }
    split; [exact Hplaced |].
    intros w' Hrun. rewrite Hrun in Hnew. simpl in Hnew. rewrite Hnew, length_app.
    simpl. lia.
Qed.

Lemma well_placed_loop (s : Sensor.t) (lines : list string) :
  forall (w : World) (i : Z),
    well_placed s (self w) ->
    i = 1 + Z.of_nat (length (robots (self w))) ->
    well_placed s
      (self (world_of (for_each (zip (seqZ i (Z.of_nat (length lines))) lines)
                                (fun ip => initialize_robot ip.1 ip.2) w))).
Proof.
  induction lines as [| line lines IH]; intros w i Hw Hi; [exact Hw |].
  rewrite enumerate_from_cons. simpl for_each. unfold mbind, M_bind.
  destruct (well_placed_spawn s w i line Hw Hi) as [Hplaced Hnext].
  destruct (initialize_robot i line w) as [[] w1 | e w1]; simpl in *.
  - apply IH; [exact Hplaced | apply Hnext; reflexivity].
  - exact Hplaced.
Qed.

End SpawnPlacement.

(** X13. However the spawning of the robots ends, on any robots file, the
    robots registered by then have the ids 1, 2, ... in the order of the
    file, no two of them are recorded on the same cell and none is recorded
    on an obstacle. *)
Theorem initialize_robots_well_placed (s : Sensor.t) (lines : list string)
    (script : list Outcome) (pids : Z -> Z) :
  well_placed s
    (self (world_of (initialize_robots lines (world (new s) script pids)))).
Proof.
  destruct (new_fields s) as [Hsensor Hrobots].
  apply (well_placed_loop s lines (world (new s) script pids) 1).
  - unfold well_placed. simpl. rewrite Hrobots. simpl.
    split; [exact Hsensor |]. split; [reflexivity |].
    split; [apply NoDup_nil_2 | apply Forall_nil_2].
  - simpl. rewrite Hrobots. reflexivity.
Qed.

(** X14. A whole run of the master, from the reading of the robots file to
    the last operator command, on any room, any file, any input and any
    behaviour of the robots, ends with no two robots recorded on the same
    cell. *)
Theorem main_keeps_robots_apart (s : Sensor.t) (robot_positions operator : list string)
    (w : World) :
  NoDup (cells (robots (self (world_of (main s robot_positions operator w))))).
Proof.
  unfold main, modify. unfold mbind at 1, M_bind at 1. cbn iota beta.
  set (w0 := {| self := new s; inbox := inbox w; fork_pid := fork_pid w;
                trace := trace w |}).
  destruct (new_fields s) as [Hsensor Hrobots].
  assert (Hstart : well_placed s (self w0)).
  { unfold well_placed. simpl. rewrite Hrobots. simpl.
    split; [exact Hsensor |]. split; [reflexivity |].
    split; [apply NoDup_nil_2 | apply Forall_nil_2]. }
  pose proof (well_placed_loop s robot_positions w0 1 Hstart
                ltac:(simpl; rewrite Hrobots; reflexivity)) as Hspawned.
  fold (enumerate1 robot_positions) in Hspawned.
  fold (initialize_robots robot_positions) in Hspawned.
  unfold mbind at 1, M_bind at 1.
  destruct (initialize_robots robot_positions w0) as [[] w1 | e w1]; simpl in Hspawned;
    [| apply Hspawned].
  destruct Hspawned as (_ & Hkeys & Hcells & _).
  assert (HK : NoDup (keys (robots (self w1)))) by (rewrite Hkeys; apply NoDup_seqZ).
  assert (Hw1 : NoDup (cells (robots (self w1))) /\
                keys (robots (self w1)) = keys (robots (self w1))) by auto.
  pose proof (preserved_print_room (P := fun m =>
                NoDup (cells (robots m)) /\ keys (robots m) = keys (robots (self w1)))
                w1 Hw1) as Hprinted.
  unfold mbind, M_bind.
  destruct (print_room w1) as [[] w2 | e w2]; simpl in Hprinted; [| apply Hprinted].
  apply (command_loop_apart (keys (robots (self w1))) operator HK w2 Hprinted).
Qed.

Section Moves.

Lemma other_robot_at_found (d : list (Z * AgentRecord)) (robot_id other : Z)
    (rec : AgentRecord) (p : Z * Z) :
  (other, rec) ∈ d -> other <> robot_id -> position rec = p ->
  other_robot_at d robot_id p <> None.
Proof.
  intros Hin Hne Hp Hnone. unfold other_robot_at in Hnone.
  apply list_elem_of_In in Hin.
  pose proof (List.find_none _ _ Hnone _ Hin) as Htest. simpl in Htest.
  rewrite (bool_decide_eq_true_2 _ Hne), (bool_decide_eq_true_2 _ Hp) in Htest.
  discriminate Htest.
Qed.

Lemma dict_get_set_eq (d : list (Z * AgentRecord)) (k : Z) (v : AgentRecord) :
  dict_get (dict_set d k v) k = Some v.
Proof.
  induction d as [| [k' v'] d IH]; simpl.
  - rewrite decide_True by reflexivity. reflexivity.
  - destruct (decide (k' = k)) as [-> | Hne]; simpl.
    + rewrite decide_True by reflexivity. reflexivity.
    + rewrite decide_False by exact Hne. exact IH.
Qed.

(** [send_command] when the robot answers a line without treasure marker. *)
Lemma send_command_reply (w : World) (robot_id : Z) (command line : string)
    (rec : AgentRecord) :
  dict_get (robots (self w)) robot_id = Some rec ->
  upcoming w = Reply line ->
  py_in "Treasure" (strip line) = false ->
  send_command robot_id command w
  = Ok (strip line)
       {| self := self w; inbox := tail (inbox w); fork_pid := fork_pid w;
          trace := trace w ++ [Kill (pid rec) None; Write robot_id command] |}.
Proof.
  intros Hrec Hup Hplain. unfold send_command, robot_of. exec. rewrite Hrec. exec.
  unfold upcoming in Hup. rewrite Hup. exec. rewrite Hplain. exec.
  rewrite <- !app_assoc. reflexivity.
Qed.

(** The master and the robot compute the same target cell. *)
Lemma new_position_calculate (r : Robot.t) (direction : string) :
  new_position (Robot.position r) direction
  = Robot.calculate_new_position r direction.
Proof.
  unfold new_position, Robot.calculate_new_position.
  destruct (Robot.position r) as [row col]. reflexivity.
Qed.

End Moves.

(** X15. When another robot is recorded on the cell a robot is sent to,
    [move_robot] gives up at once: it reports failure, prints one line, and
    neither probes nor writes to the robot, whose answers stay unread; the
    master object is unchanged. *)
Theorem move_robot_collision (w : World) (robot_id other : Z) (direction : string)
    (rec rec' : AgentRecord) :
  dict_get (robots (self w)) robot_id = Some rec ->
  (other, rec') ∈ robots (self w) ->
  other <> robot_id ->
  position rec' = new_position (position rec) direction ->
  exists w' line,
    move_robot robot_id direction w = Ok false w' /\
    self w' = self w /\ inbox w' = inbox w /\
    events_since w w' = [Print line].
Proof.
  intros Hrec Hin Hne Hpos.
  pose proof (other_robot_at_found _ robot_id other rec' _ Hin Hne Hpos) as Hfound.
  unfold move_robot, robot_of. exec. rewrite Hrec. exec.
  destruct (position rec) as [old_row old_col].
  destruct (new_position (old_row, old_col) direction) as [new_row new_col]. exec.
  destruct (other_robot_at _ _ _) as [[other_id ?] |]; [| contradiction]. exec.
  do 2 eexists. split; [reflexivity |]. repeat split.
  apply events_since_app. reflexivity.
Qed.

Lemma move_robot_collision_witness :
  exists w' line,
    move_robot 1 "right" side_by_side = Ok false w' /\
    self w' = self side_by_side /\ inbox w' = inbox side_by_side /\
    events_since side_by_side w' = [Print line].
Proof.
  refine (move_robot_collision side_by_side 1 2 "right"
            {| pid := 101; position := (0, 0) |}
            {| pid := 102; position := (0, 1) |} eq_refl _ _ eq_refl).
  - vm_compute. apply elem_of_cons. right. apply elem_of_cons. left. reflexivity.
  - discriminate.
Defined.

Section Following.

(** Rules out the index errors on cells of the room. *)
Ltac no_index_error :=
  match goal with
  | H : grid_set ?g ?r ?c ?v = None, Hg : grid_shape ?s ?g,
    Hin : in_room ?s (?r, ?c) |- _ =>
      let Hx := fresh in
      destruct (grid_set_in_room s g (r, c) v Hg Hin) as (? & Hx & _);
      simpl in Hx; rewrite Hx in H; discriminate H
  end.

(** [move_robot] when the robot answers OK to a move between two cells of
    the room. *)
Lemma move_robot_accepted (s : Sensor.t) (w : World) (robot_id : Z)
    (direction : string) (rec : AgentRecord) :
  grid_shape s (room_info (self w)) ->
  dict_get (robots (self w)) robot_id = Some rec ->
  in_room s (position rec) ->
  in_room s (new_position (position rec) direction) ->
  other_robot_at (robots (self w)) robot_id
                 (new_position (position rec) direction) = None ->
  upcoming w = Reply "OK" ->
  (exists w', move_robot robot_id direction w = Ok true w' /\
              dict_get (robots (self w')) robot_id
              = Some {| pid := pid rec;
                        position := new_position (position rec) direction |}) \/
  (exists w', move_robot robot_id direction w = Raise (SystemExit 0) w' /\
              terminations w' = S (terminations w)).
Proof.
  intros Hshape Hrec Hold Hnew Hfree Hup.
  unfold move_robot, robot_of. exec. rewrite Hrec. exec.
  destruct (position rec) as [old_row old_col].
  destruct (new_position (old_row, old_col) direction) as [new_row new_col]. exec.
  rewrite Hfree. exec.
  rewrite (send_command_reply w robot_id _ "OK" rec Hrec Hup eq_refl).
  change (strip "OK") with "OK". change (py_in "OK" "OK") with true.
  unfold room_info_set, set_position, robot_of, exit_program.
  repeat (exec; rewrite ?Hrec; branch); exec; rewrite ?Hrec; exec;
    try no_index_error; shape_chain; try no_index_error;
    try (left; eexists; split; [reflexivity |]; simpl; apply dict_get_set_eq);
    right; eexists; (split; [reflexivity |]);
    unfold terminations; cbn [trace];
    rewrite ?List.filter_app, ?length_app; simpl; lia.
Qed.

End Following.

(** X16. The master's record follows the robot. Suppose the master records
    robot [robot_id] where the robot [r] really is, a cell of the room, that
    both use the same room description, that no collision is predicted and
    that the answer of [r] to the move is what the master reads next. Then
    either [move_robot] returns, reporting success exactly when the robot
    answered OK, and the master records the robot where it now is; or the
    move found the last treasure and the program ends through the
    termination sequence. No exception is raised on the way. *)
Theorem move_robot_follows_robot (w : World) (robot_id : Z) (direction : string)
    (rec : AgentRecord) (r : Robot.t) :
  grid_shape (Robot.sensor r) (room_info (self w)) ->
  dict_get (robots (self w)) robot_id = Some rec ->
  position rec = Robot.position r ->
  in_room (Robot.sensor r) (Robot.position r) ->
  other_robot_at (robots (self w)) robot_id
                 (new_position (position rec) direction) = None ->
  upcoming w = Reply (Robot.move r direction).2 ->
  (exists b w',
     move_robot robot_id direction w = Ok b w' /\
     (b = true <-> (Robot.move r direction).2 = "OK") /\
     dict_get (robots (self w')) robot_id
     = Some {| pid := pid rec;
               position := Robot.position (Robot.move r direction).1 |}) \/
  (exists w', move_robot robot_id direction w = Raise (SystemExit 0) w' /\
              terminations w' = S (terminations w)).
Proof.
  intros Hshape Hrec Hpos Hin Hfree Hup.
  destruct (move_towards r direction) as [Hok Hko].
  destruct (move_allowed_dec r (Robot.calculate_new_position r direction))
    as [Hallowed | Hrefused].
  - rewrite (Hok Hallowed) in *. simpl in *.
    destruct Hallowed as (_ & _ & Htarget & _).
    rewrite <- new_position_calculate, <- Hpos in Htarget.
    destruct (move_robot_accepted (Robot.sensor r) w robot_id direction rec
                Hshape Hrec ltac:(rewrite Hpos; exact Hin) Htarget Hfree Hup)
      as [(w' & Hmove & Hrecord) | Hexit]; [| right; exact Hexit].
    left. exists true, w'. split; [exact Hmove |]. split; [tauto |].
    rewrite Hrecord, <- new_position_calculate, Hpos. reflexivity.
  - rewrite (Hko Hrefused) in *. simpl in *.
    pose proof (send_command_reply w robot_id ("mv " +:+ direction) "KO" rec
                  Hrec Hup eq_refl) as Hsend.
    change (strip "KO") with "KO" in Hsend.
    destruct (move_robot_refused w _ robot_id direction "KO" rec Hrec Hfree Hsend eq_refl)
      as (w' & Hmove & Hself).
    left. exists false, w'. split; [exact Hmove |]. split; [split; discriminate |].
    rewrite Hself. simpl. rewrite Hrec, <- Hpos. destruct rec; reflexivity.
Qed.

Lemma move_robot_follows_robot_witness :
  (exists b w',
     move_robot 1 "down" side_by_side = Ok b w' /\
     (b = true <-> (Robot.move (Robot.init 1 (0, 0) 100 open_room) "down").2 = "OK") /\
     dict_get (robots (self w')) 1
     = Some {| pid := 101;
               position := Robot.position
                             (Robot.move (Robot.init 1 (0, 0) 100 open_room) "down").1 |}) \/
  (exists w', move_robot 1 "down" side_by_side = Raise (SystemExit 0) w' /\
              terminations w' = S (terminations side_by_side)).
Proof.
  refine (move_robot_follows_robot side_by_side 1 "down"
            {| pid := 101; position := (0, 0) |}
            (Robot.init 1 (0, 0) 100 open_room) _ eq_refl eq_refl _ eq_refl eq_refl).
  - split; [reflexivity | repeat constructor].
  - unfold in_room. cbn. lia.
Defined.

Section Broadcast.

Lemma dict_get_member (d : list (Z * AgentRecord)) (k : Z) (v : AgentRecord) :
  NoDup (keys d) -> (k, v) ∈ d -> dict_get d k = Some v.
Proof.
  unfold keys. induction d as [| [k' v'] d IH]; intros Hkeys Hin.
  - inversion Hin.
  - simpl in Hkeys. apply NoDup_cons in Hkeys. destruct Hkeys as [Hk' Hkeys].
    apply elem_of_cons in Hin. simpl.
    destruct Hin as [[= -> ->] | Hin].
    + rewrite decide_True by reflexivity. reflexivity.
    + destruct (decide (k' = k)) as [-> | Hne]; [| apply IH; assumption].
      exfalso. apply Hk'. apply list_elem_of_fmap. exists (k, v). auto.
Qed.

Lemma kill_robot_known (w : World) (k : Z) (v : AgentRecord) (signum : Signal) :
  dict_get (robots (self w)) k = Some v ->
  kill_robot k signum w
  = Ok tt {| self := self w; inbox := inbox w; fork_pid := fork_pid w;
             trace := trace w ++ [Kill (pid v) (Some signum)] |}.
Proof. intros Hk. unfold kill_robot, robot_of. exec. rewrite Hk. reflexivity. Qed.

(** Sending a signal to each robot of a part [l] of the dictionary. *)
Lemma for_each_kill (signum : Signal) (l : list (Z * AgentRecord)) :
  forall w : World,
    (forall k v, (k, v) ∈ l -> dict_get (robots (self w)) k = Some v) ->
    for_each (keys l) (fun rid => kill_robot rid signum) w
    = Ok tt {| self := self w; inbox := inbox w; fork_pid := fork_pid w;
               trace := trace w ++ signal_all l signum |}.
Proof.
  unfold keys, signal_all. induction l as [| [k v] l IH]; intros w Hl; simpl.
  - rewrite app_nil_r. destruct w; reflexivity.
  - unfold mbind, M_bind.
    rewrite (kill_robot_known w k v) by (apply Hl, elem_of_cons; auto).
    rewrite IH.
    + cbn [self inbox fork_pid trace]. rewrite <- app_assoc. reflexivity.
    + intros k' v' Hin. cbn [self]. apply Hl. apply elem_of_cons. auto.
Qed.

Lemma signal_every_robot (signum : Signal) (w : World) :
  NoDup (keys (robots (self w))) ->
  for_each (keys (robots (self w))) (fun rid => kill_robot rid signum) w
  = Ok tt {| self := self w; inbox := inbox w; fork_pid := fork_pid w;
             trace := trace w ++ signal_all (robots (self w)) signum |}.
Proof.
  intros Hkeys. apply for_each_kill. intros k v. apply dict_get_member, Hkeys.
Qed.

End Broadcast.

(** X17. On SIGQUIT the master sends the refill signal SIGUSR1 to every
    registered robot, once each and in the order of their creation, after
    announcing it; on SIGTSTP it passes SIGTSTP on to every robot the same
    way. Neither changes the master object nor reads any answer. *)
Theorem handle_signal_reaches_every_robot (w : World) :
  NoDup (keys (robots (self w))) ->
  (exists w', handle_signal SIGQUIT w = Ok tt w' /\
              self w' = self w /\ inbox w' = inbox w /\
              events_since w w'
              = Print (String "010" "Replenishing batteries")
                  :: signal_all (robots (self w)) SIGUSR1) /\
  (exists w', handle_signal SIGTSTP w = Ok tt w' /\
              self w' = self w /\ inbox w' = inbox w /\
              events_since w w' = signal_all (robots (self w)) SIGTSTP).
Proof.
  intros Hkeys. split.
  - unfold handle_signal, print. exec.
    pose proof (signal_every_robot SIGUSR1
      {| self := self w; inbox := inbox w; fork_pid := fork_pid w;
         trace := trace w ++ [Print (String "010" "Replenishing batteries")] |}
      Hkeys) as Hall.
    cbn [self inbox fork_pid trace] in Hall. rewrite Hall.
    eexists. split; [reflexivity |]. repeat split.
    apply events_since_app. cbn [trace]. rewrite <- app_assoc. reflexivity.
  - unfold handle_signal. exec. rewrite (signal_every_robot SIGTSTP w Hkeys).
    eexists. split; [reflexivity |]. repeat split.
    apply events_since_app. reflexivity.
Qed.

Lemma handle_signal_reaches_every_robot_witness :
  exists w', handle_signal SIGQUIT side_by_side = Ok tt w' /\
             self w' = self side_by_side /\ inbox w' = inbox side_by_side /\
             events_since side_by_side w'
             = [Print (String "010" "Replenishing batteries");
                Kill 101 (Some SIGUSR1); Kill 102 (Some SIGUSR1)].
Proof.
  refine (proj1 (handle_signal_reaches_every_robot side_by_side _)).
  vm_compute. repeat constructor; intros Hin;
    repeat (apply elem_of_cons in Hin; destruct Hin as [Hin | Hin]; [discriminate Hin |]);
    inversion Hin.
Defined.

(** X18. The operator commands [suspend all] and [resume all] send SIGINT,
    respectively SIGQUIT, to every registered robot, once each and in the
    order of their creation, and do nothing else: no answer is awaited and
    the master object is unchanged. *)
Theorem suspend_resume_all (w : World) (command : string) :
  NoDup (keys (robots (self w))) ->
  (split (strip command) = ["suspend"; "all"] ->
   exists w', handle_command command w = Ok tt w' /\
              self w' = self w /\ inbox w' = inbox w /\
              events_since w w' = signal_all (robots (self w)) SIGINT) /\
  (split (strip command) = ["resume"; "all"] ->
   exists w', handle_command command w = Ok tt w' /\
              self w' = self w /\ inbox w' = inbox w /\
              events_since w w' = signal_all (robots (self w)) SIGQUIT).
Proof.
  intros Hkeys. split; intros Hparts; unfold handle_command; rewrite Hparts;
    simpl; unfold one_or_all; simpl; exec.
  - rewrite (signal_every_robot SIGINT w Hkeys).
    eexists. split; [reflexivity |]. repeat split.
    apply events_since_app. reflexivity.
  - rewrite (signal_every_robot SIGQUIT w Hkeys).
    eexists. split; [reflexivity |]. repeat split.
    apply events_since_app. reflexivity.
Qed.

Lemma suspend_resume_all_witness :
  exists w', handle_command "suspend all" side_by_side = Ok tt w' /\
             self w' = self side_by_side /\ inbox w' = inbox side_by_side /\
             events_since side_by_side w'
             = [Kill 101 (Some SIGINT); Kill 102 (Some SIGINT)].
Proof.
  refine (proj1 (suspend_resume_all side_by_side "suspend all" _) eq_refl).
  vm_compute. repeat constructor; intros Hin;
    repeat (apply elem_of_cons in Hin; destruct Hin as [Hin | Hin]; [discriminate Hin |]);
    inversion Hin.
Defined.

Section Printing.

Lemma for_each_print (rows : list (list string)) :
  forall w : World,
    for_each rows (fun row => print (join " " row)) w
    = Ok tt {| self := self w; inbox := inbox w; fork_pid := fork_pid w;
               trace := trace w ++ ((fun row => Print (join " " row)) <$> rows) |}.
Proof.
  induction rows as [| row rows IH]; intros w; simpl.
  - rewrite app_nil_r. destruct w; reflexivity.
  - unfold print at 1. exec. rewrite IH. cbn [self inbox fork_pid trace].
    rewrite <- app_assoc. reflexivity.
Qed.

End Printing.

(** X19. Showing the room never fails and changes nothing: [print_room]
    prints its heading and then one line per row of the grid, the cells of a
    row separated by blanks, and leaves the master and the robots alone. *)
Theorem print_room_prints_every_row (w : World) :
  exists w', print_room w = Ok tt w' /\
             self w' = self w /\ inbox w' = inbox w /\
             events_since w w'
             = Print "Our information about the room so far:"
                 :: ((fun row => Print (join " " row)) <$> room_info (self w)).
Proof.
  unfold print_room. unfold print at 1. exec. rewrite for_each_print.
  eexists. split; [reflexivity |]. repeat split.
  apply events_since_app. cbn [trace self]. rewrite <- app_assoc. reflexivity.
Qed.





(** X22. When the process of the robot is gone, [send_command] answers
    Error after its probe and a diagnostic, without writing to the pipe or
    waiting, and without changing the master object. *)
Theorem send_command_process_gone (w : World) (robot_id : Z) (command : string)
    (rec : AgentRecord) :
  dict_get (robots (self w)) robot_id = Some rec ->
  upcoming w = ProcessGone ->
  exists w', send_command robot_id command w = Ok "Error" w' /\
             self w' = self w /\
             events_since w w'
             = [Kill (pid rec) None;
                PrintErr ("Robot " +:+ pretty robot_id +:+ " is no longer running")].
Proof.
  intros Hrec Hup. unfold send_command, robot_of. exec. rewrite Hrec. exec.
  unfold upcoming in Hup. rewrite Hup. exec.
  eexists. split; [reflexivity |]. split; [reflexivity |].
  apply events_since_app. cbn [trace]. rewrite <- app_assoc. reflexivity.
Qed.

Lemma send_command_process_gone_witness :
  exists w',
    send_command 1 "bat"
      {| self := self silent_world; inbox := [ProcessGone];
         fork_pid := fork_pid silent_world; trace := [] |}
    = Ok "Error" w' /\
    self w' = self silent_world /\
    events_since {| self := self silent_world; inbox := [ProcessGone];
                    fork_pid := fork_pid silent_world; trace := [] |} w'
    = [Kill 101 None; PrintErr ("Robot " +:+ pretty 1 +:+ " is no longer running")].
Proof.
  exact (send_command_process_gone
           {| self := self silent_world; inbox := [ProcessGone];
              fork_pid := fork_pid silent_world; trace := [] |}
           1 "bat" {| pid := 101; position := (0, 0) |} eq_refl eq_refl).
Defined.

Section Drawing.

(** Turns the writes made to the grid into what they show at cell [q]. *)
Ltac cell_chain s q Hq :=
  repeat match goal with
         | H : grid_set ?g ?r ?c ?v = Some ?g', Hg : grid_shape s ?g,
           Hin : in_room s (?r, ?c) |- _ =>
             let g'' := fresh "g" in
             let Hset := fresh "Hset" in
             let Hshape := fresh "Hshape" in
             let Hcell := fresh "Hcell" in
             destruct (cell_at_grid_set s g (r, c) q v Hg Hin Hq)
               as (g'' & Hset & Hshape & Hcell);
             simpl in Hset; rewrite H in Hset; injection Hset as <-; clear H
         end.

Lemma move_robot_drawing (s : Sensor.t) (w w' : World) (robot_id : Z)
    (direction : string) (rec : AgentRecord) (q : Z * Z) :
  grid_shape s (room_info (self w)) ->
  dict_get (robots (self w)) robot_id = Some rec ->
  in_room s (position rec) ->
  in_room s (new_position (position rec) direction) ->
  other_robot_at (robots (self w)) robot_id
                 (new_position (position rec) direction) = None ->
  upcoming w = Reply "OK" ->
  move_robot robot_id direction w = Ok true w' ->
  in_room s q ->
  cell_at (room_info (self w')) q
  = drawn_after_move (self w) robot_id (position rec)
      (new_position (position rec) direction) q.
Proof.
  intros Hshape Hrec Hold Hnew Hfree Hup Hmove Hq. revert Hmove.
  unfold drawn_after_move, move_robot, robot_of. exec. rewrite Hrec. exec.
  destruct (position rec) as [old_row old_col].
  destruct (new_position (old_row, old_col) direction) as [new_row new_col]. exec.
  rewrite Hfree. exec.
  rewrite (send_command_reply w robot_id _ "OK" rec Hrec Hup eq_refl).
  change (strip "OK") with "OK". change (py_in "OK" "OK") with true.
  unfold room_info_set, set_position, robot_of, exit_program.
  repeat (exec; rewrite ?Hrec; branch); exec; rewrite ?Hrec; exec;
    intros Hmove; try discriminate Hmove;
    injection Hmove as <-; cbn [self room_info set_robots set_room_info
      set_treasures_found set_discovered_treasures];
    cell_chain s q Hq;
    repeat match goal with
           | H : cell_at ?g q = _ |- context [cell_at ?g q] => rewrite H; clear H
           end;
    repeat case_decide; try reflexivity; try congruence; try contradiction.
Qed.

End Drawing.

(** X23. After a move the robot answered OK to, between two cells of the
    room, the grid of the master shows the robot on its new cell (RT on a
    treasure, R otherwise), shows the cell it left as T when it holds a
    treasure and as - otherwise, unless another robot is recorded there, and
    shows every other cell of the room as before. *)
Theorem move_robot_draws_the_move (s : Sensor.t) (w w' : World) (robot_id : Z)
    (direction : string) (rec : AgentRecord) :
  grid_shape s (room_info (self w)) ->
  dict_get (robots (self w)) robot_id = Some rec ->
  in_room s (position rec) ->
  in_room s (new_position (position rec) direction) ->
  other_robot_at (robots (self w)) robot_id
                 (new_position (position rec) direction) = None ->
  upcoming w = Reply "OK" ->
  move_robot robot_id direction w = Ok true w' ->
  forall q, in_room s q ->
    cell_at (room_info (self w')) q
    = drawn_after_move (self w) robot_id (position rec)
        (new_position (position rec) direction) q.
Proof.
  intros Hshape Hrec Hold Hnew Hfree Hup Hmove q Hq.
  exact (move_robot_drawing s w w' robot_id direction rec q
           Hshape Hrec Hold Hnew Hfree Hup Hmove Hq).
Qed.

Lemma move_robot_draws_the_move_witness :
  cell_at (room_info (self (world_of (move_robot 1 "down" side_by_side)))) (1, 0)
  = Some "R" /\
  cell_at (room_info (self (world_of (move_robot 1 "down" side_by_side)))) (0, 0)
  = Some "-" /\
  cell_at (room_info (self (world_of (move_robot 1 "down" side_by_side)))) (0, 1)
  = Some "R".
Proof.
  assert (Hroom : forall q, in_room open_room q ->
    cell_at (room_info (self (world_of (move_robot 1 "down" side_by_side)))) q
    = drawn_after_move (self side_by_side) 1 (0, 0) (1, 0) q).
  { refine (move_robot_draws_the_move open_room side_by_side _ 1 "down"
              {| pid := 101; position := (0, 0) |} _ eq_refl _ _ eq_refl eq_refl _).
    all: try (split; [reflexivity | repeat constructor]).
    all: try (vm_compute; reflexivity).
    all: vm_compute; repeat split; discriminate. }
  repeat split; (rewrite Hroom by (vm_compute; repeat split; discriminate)); reflexivity.
Defined.

Section LedgerRun.

Lemma send_command_inbox (w : World) (robot_id : Z) (command : string) :
  inbox (world_of (send_command robot_id command w)) = inbox w \/
  inbox (world_of (send_command robot_id command w)) = tail (inbox w).
Proof.
  unfold send_command, communication_error, robot_of, room_info_set, exit_program.
  repeat (exec; branch); exec; simpl; auto.
Qed.

Lemma move_robot_inbox (w : World) (robot_id : Z) (direction : string) :
  inbox (world_of (move_robot robot_id direction w)) = inbox w \/
  inbox (world_of (move_robot robot_id direction w)) = tail (inbox w).
Proof.
  pose proof (send_command_inbox w robot_id ("mv " +:+ direction)) as Hsend.
  unfold move_robot, robot_of. exec.
  destruct (dict_get (robots (self w)) robot_id) as [rec |]; exec; [| auto].
  destruct (position rec) as [old_row old_col].
  destruct (new_position (old_row, old_col) direction) as [new_row new_col]. exec.
  destruct (other_robot_at _ _ _) as [[other_id ?] |]; exec; [auto |].
  destruct (send_command robot_id ("mv " +:+ direction) w) as [response w1 | e w1];
    simpl in Hsend; exec; [| exact Hsend].
  unfold room_info_set, set_position, robot_of, exit_program.
  repeat (exec; branch); exec; simpl; exact Hsend.
Qed.

Lemma initialize_robot_inbox (w : World) (i : Z) (line : string) :
  inbox (world_of (initialize_robot i line w)) = inbox w.
Proof.
  unfold initialize_robot, fork, room_info_set.
  repeat (exec; branch); exec; reflexivity.
Qed.

Lemma initialize_robots_inbox (lines : list string) (w : World) :
  inbox (world_of (initialize_robots lines w)) = inbox w.
Proof.
  unfold initialize_robots, enumerate1. generalize 1.
  revert w. induction lines as [| line lines IH]; intros w i; [reflexivity |].
  rewrite enumerate_from_cons. simpl for_each. unfold mbind, M_bind.
  pose proof (initialize_robot_inbox w i line) as Hstep.
  destruct (initialize_robot i line w) as [[] w1 | e w1]; simpl in *.
  - rewrite IH. exact Hstep.
  - exact Hstep.
Qed.

Lemma plain_inbox_exchange (w : World) :
  Forall plain_outcome (inbox w) -> plain_exchange w.
Proof.
  unfold plain_exchange, upcoming. destruct (inbox w) as [| o rest]; [auto |].
  intros Hall. apply Forall_cons in Hall. destruct Hall as [Ho _].
  destruct o; auto.
Qed.

Lemma plain_inbox_later (w w' : World) :
  Forall plain_outcome (inbox w) ->
  inbox w' = inbox w \/ inbox w' = tail (inbox w) ->
  Forall plain_outcome (inbox w').
Proof.
  intros Hall [-> | ->]; [exact Hall |].
  destruct (inbox w); [exact Hall |]. apply Forall_cons in Hall. apply Hall.
Qed.

(** Counter and set stay in step through the command loop, as long as no
    line with the treasure marker is ever read. *)
Lemma command_loop_ledger (lines : list string) :
  preserved_world
    (fun w => ledger_agrees (self w) /\ Forall plain_outcome (inbox w))
    (command_loop lines).
Proof.
  apply keeps_command_loop.
  - intros w t Hw. exact Hw.
  - intros rid command w [Hledger Hplain]. split.
    + rewrite send_command_plain_exchange by (apply plain_inbox_exchange, Hplain).
      exact Hledger.
    + apply (plain_inbox_later w); [exact Hplain | apply send_command_inbox].
  - intros rid direction w [Hledger Hplain]. split.
    + apply move_robot_keeps_ledger; [apply plain_inbox_exchange, Hplain | exact Hledger].
    + apply (plain_inbox_later w); [exact Hplain | apply move_robot_inbox].
Qed.

End LedgerRun.

(** X24. As long as no robot answers with a line carrying the treasure
    marker (robot.py prints it for the query [tr] only, which the master
    never sends), the counter of found treasures equals the number of
    discovered positions from the start of a run of the master to its end:
    after the spawning of the robots and after any sequence of operator
    commands, however the run ends. *)
Theorem main_keeps_ledger (s : Sensor.t) (robot_positions operator : list string)
    (w : World) :
  Forall plain_outcome (inbox w) ->
  ledger_agrees (self (world_of (main s robot_positions operator w))).
Proof.
  intros Hplain.
  unfold main, modify. unfold mbind at 1, M_bind at 1. cbn iota beta.
  set (w0 := {| self := new s; inbox := inbox w; fork_pid := fork_pid w;
                trace := trace w |}).
  destruct (new_fields s) as [_ Hrobots].
  assert (Hnew : discovered_treasures (new s) = ∅ /\ treasures_found (new s) = 0).
  { unfold new. destruct (initialize_room_info s). split; reflexivity. }
  destruct Hnew as [Hdisc Hfound].
  assert (Hstart : counting w0 1).
  { split; simpl.
    - unfold ledger_agrees. rewrite Hdisc, Hfound. reflexivity.
    - intros p. rewrite Hdisc. intros Hp. apply not_elem_of_empty in Hp. contradiction.
    - intros k _. rewrite Hrobots. reflexivity. }
  pose proof (spawn_loop_counting robot_positions w0 1 Hstart) as [Hspawned _].
  fold (enumerate1 robot_positions) in Hspawned.
  fold (initialize_robots robot_positions) in Hspawned.
  pose proof (initialize_robots_inbox robot_positions w0) as Hinbox.
  unfold mbind at 1, M_bind at 1.
  destruct (initialize_robots robot_positions w0) as [[] w1 | e w1];
    simpl in Hspawned, Hinbox; [| exact Hspawned].
  assert (Hw1 : ledger_agrees (self w1) /\ Forall plain_outcome (inbox w1))
    by (rewrite Hinbox; auto).
  pose proof (keeps_print_room
                (Q := fun w => ledger_agrees (self w) /\ Forall plain_outcome (inbox w))
                (fun w t Hw => Hw) w1 Hw1) as Hprinted.
  unfold mbind, M_bind.
  destruct (print_room w1) as [[] w2 | e w2]; simpl in Hprinted; [| apply Hprinted].
  apply (command_loop_ledger operator w2 Hprinted).
Qed.

Lemma main_keeps_ledger_witness :
  ledger_agrees
    (self (world_of (main one_treasure_room ["(0,0)"] ["mv 1 right"; "mv 1 right"]
                       (world (new one_treasure_room) [Reply "OK"; Reply "OK"]
                              (fun i => 100 + i))))).
Proof.
  apply (main_keeps_ledger one_treasure_room ["(0,0)"] ["mv 1 right"; "mv 1 right"]).
  repeat constructor.
Defined.

